(** * HVAC schedule service: persistence and legacy-shape migration

    A shallow embedding of [app_simple.py]: the schedule file handling
    ([load_schedules], [save_schedules]), the three HTTP handlers that sit on
    top of it, and the device configuration accessor.

    The program talks to two things outside itself: the files of the working
    directory and Python's [json] module.  Files are a finite map from path
    to text; [json.dump] and [json.load] are modelled by an encoder and a
    recursive-descent reader over that text, so that what is written by one
    call is what the next call reads. *)

From Stdlib Require Import ZArith String Ascii List Bool Lia.
From Stdlib Require Import DecimalString DecimalZ DecimalPos DecimalFacts.
From stdpp Require Import base option list gmap strings.
Import ListNotations.

Local Open Scope list_scope.

(** ** JSON values

    What [json.load] produces and [json.dump] consumes.  Python's [None],
    [bool], [int], [float], [str], [list] and [dict] in that order.  A [dict]
    keeps its keys in insertion order and never holds a key twice; it is an
    association list here, with [Dict.set] doing what [d[k] = v] does.  A
    float is carried by its decimal literal (the text [float.__repr__] prints
    and [float()] reads); the non-standard literals [NaN] and [Infinity] are
    not part of the model.  Characters are the code points below 256. *)

Unset Elimination Schemes.
Inductive json : Type :=
| JNull
| JBool (b : bool)
| JInt (z : Z)
| JFloat (lit : string)
| JStr (s : string)
| JArr (items : list json)
| JObj (members : list (string * json)).
Set Elimination Schemes.

(** Induction on values, with the elements of a list and the values of a
    dictionary as premises. *)

Section json_induction.

Variable P : json -> Prop.
Hypothesis P_null : P JNull.
Hypothesis P_bool : forall b, P (JBool b).
Hypothesis P_int : forall z, P (JInt z).
Hypothesis P_float : forall lit, P (JFloat lit).
Hypothesis P_str : forall s, P (JStr s).
Hypothesis P_arr : forall items, Forall P items -> P (JArr items).
Hypothesis P_obj :
  forall members, Forall (fun kv => P (snd kv)) members -> P (JObj members).

Fixpoint json_ind (v : json) : P v :=
  match v with
  | JNull => P_null
  | JBool b => P_bool b
  | JInt z => P_int z
  | JFloat lit => P_float lit
  | JStr s => P_str s
  | JArr items =>
      P_arr items
        ((fix all (l : list json) : Forall P l :=
            match l with
            | [] => @List.Forall_nil _ P
            | x :: l' => @List.Forall_cons _ P x l' (json_ind x) (all l')
            end) items)
  | JObj members =>
      P_obj members
        ((fix all (l : list (string * json))
            : Forall (fun kv => P (snd kv)) l :=
            match l with
            | [] => @List.Forall_nil _ _
            | kv :: l' =>
                @List.Forall_cons _ (fun kv => P (snd kv)) kv l'
                  (json_ind (snd kv)) (all l')
            end) members)
  end.

End json_induction.

Module Dict.

(** [k in d] *)
Fixpoint mem {A} (k : string) (d : list (string * A)) : bool :=
  match d with
  | [] => false
  | (k', _) :: d' => if String.eqb k k' then true else mem k d'
  end.

(** [d.get(k)] *)
Fixpoint get {A} (k : string) (d : list (string * A)) : option A :=
  match d with
  | [] => None
  | (k', v) :: d' => if String.eqb k k' then Some v else get k d'
  end.

(** [d[k] = v]: an existing key keeps its place and takes the new value,
    a new key goes last. *)
Fixpoint set {A} (k : string) (v : A) (d : list (string * A))
  : list (string * A) :=
  match d with
  | [] => [(k, v)]
  | (k', v') :: d' =>
      if String.eqb k k' then (k', v) :: d' else (k', v') :: set k v d'
  end.

(** [dict(pairs)]: the pairs are inserted from left to right. *)
Definition of_pairs {A} (pairs : list (string * A)) : list (string * A) :=
  fold_left (fun d kv => set (fst kv) (snd kv) d) pairs [].

Fixpoint keys_distinct {A} (d : list (string * A)) : bool :=
  match d with
  | [] => true
  | (k, _) :: d' => negb (mem k d') && keys_distinct d'
  end.

End Dict.

(** The key test of the source, [isinstance(content, dict) and k in content],
    read on a JSON value. *)
Definition is_dict (v : json) : bool :=
  match v with JObj _ => true | _ => false end.

Definition has_key (k : string) (v : json) : bool :=
  match v with JObj d => Dict.mem k d | _ => false end.

Definition field (k : string) (v : json) : option json :=
  match v with JObj d => Dict.get k d | _ => None end.

(** ** The [json] module

    [json.dump(data, f, indent=2)] and [json.load(f)] of the standard library,
    on text as a list of characters. *)

Module Json.

Local Open Scope char_scope.

Definition text := list ascii.

Definition chars (s : string) : list ascii := list_ascii_of_string s.

(** *** Encoder *)

Definition hex_digit (n : N) : ascii :=
  if (n <? 10)%N then ascii_of_N (48 + n) else ascii_of_N (87 + n).

(** One character of a string, as [ESCAPE_ASCII] replaces it. *)
Definition escape_char (c : ascii) : list ascii :=
  if Ascii.eqb c "034" then ["\"; "034"]
  else if Ascii.eqb c "\" then ["\"; "\"]
  else if Ascii.eqb c "010" then ["\"; "n"]
  else if Ascii.eqb c "013" then ["\"; "r"]
  else if Ascii.eqb c "009" then ["\"; "t"]
  else if Ascii.eqb c "008" then ["\"; "b"]
  else if Ascii.eqb c "012" then ["\"; "f"]
  else
    let n := N_of_ascii c in
    if ((32 <=? n) && (n <=? 126))%N then [c]
    else ["\"; "u"; "0"; "0"; hex_digit (n / 16); hex_digit (n mod 16)].

Definition encode_string (s : string) : list ascii :=
  "034" :: flat_map escape_char (chars s) ++ ["034"].

Definition encode_int (z : Z) : list ascii :=
  chars (NilZero.string_of_int (Z.to_int z)).

(** A line break followed by the indentation of nesting level [lvl]. *)
Definition newline_indent (lvl : nat) : list ascii :=
  "010" :: repeat " " (2 * lvl).

Fixpoint join (sep : list ascii) (parts : list (list ascii)) : list ascii :=
  match parts with
  | [] => []
  | [p] => p
  | p :: ps => p ++ sep ++ join sep ps
  end.

(** One [key: value] pair of a [dict], [enc] encoding the value. *)
Definition encode_member (enc : json -> list ascii) (kv : string * json)
  : list ascii :=
  encode_string (fst kv) ++ ":" :: " " :: enc (snd kv).

Fixpoint encode (lvl : nat) (v : json) : list ascii :=
  match v with
  | JNull => chars "null"
  | JBool true => chars "true"
  | JBool false => chars "false"
  | JInt z => encode_int z
  | JFloat lit => chars lit
  | JStr s => encode_string s
  | JArr [] => chars "[]"
  | JArr items =>
      "[" :: newline_indent (S lvl)
        ++ join ("," :: newline_indent (S lvl)) (map (encode (S lvl)) items)
        ++ newline_indent lvl ++ ["]"]
  | JObj [] => chars "{}"
  | JObj members =>
      "{" :: newline_indent (S lvl)
        ++ join ("," :: newline_indent (S lvl))
             (map (encode_member (encode (S lvl))) members)
        ++ newline_indent lvl ++ ["}"]
  end.

Definition dumps (v : json) : text := encode 0 v.

(** *** Decoder *)

Definition is_ws (c : ascii) : bool :=
  Ascii.eqb c " " || Ascii.eqb c "009" || Ascii.eqb c "010"
  || Ascii.eqb c "013".

Fixpoint skip_ws (s : list ascii) : list ascii :=
  match s with
  | c :: s' => if is_ws c then skip_ws s' else s
  | [] => []
  end.

Definition is_digit (c : ascii) : bool :=
  let n := N_of_ascii c in ((48 <=? n) && (n <=? 57))%N.

Definition hex_value (c : ascii) : option N :=
  let n := N_of_ascii c in
  if ((48 <=? n) && (n <=? 57))%N then Some (n - 48)%N
  else if ((97 <=? n) && (n <=? 102))%N then Some (n - 87)%N
  else if ((65 <=? n) && (n <=? 70))%N then Some (n - 55)%N
  else None.

(** The four hexadecimal digits of a [\u] escape; a code point of 256 or
    more has no character in the model. *)
Definition unescape_u (a b c d : ascii) : option ascii :=
  match hex_value a, hex_value b, hex_value c, hex_value d with
  | Some x, Some y, Some z, Some w =>
      let n := (((x * 16 + y) * 16 + z) * 16 + w)%N in
      if (n <? 256)%N then Some (ascii_of_N n) else None
  | _, _, _, _ => None
  end.

Definition unescape (c : ascii) : option ascii :=
  if Ascii.eqb c "034" then Some "034"
  else if Ascii.eqb c "\" then Some "\"
  else if Ascii.eqb c "/" then Some "/"
  else if Ascii.eqb c "b" then Some "008"
  else if Ascii.eqb c "f" then Some "012"
  else if Ascii.eqb c "n" then Some "010"
  else if Ascii.eqb c "r" then Some "013"
  else if Ascii.eqb c "t" then Some "009"
  else None.

(** [scanstring], entered after the opening quote: the decoded string and
    the text after the closing quote.  A raw control character is refused
    (strict mode). *)
Fixpoint scan_string (s : list ascii) : option (string * list ascii) :=
  match s with
  | [] => None
  | c :: s' =>
      if Ascii.eqb c "034" then Some (EmptyString, s')
      else if Ascii.eqb c "\" then
        match s' with
        | "u" :: a :: b :: c' :: d :: s'' =>
            match unescape_u a b c' d, scan_string s'' with
            | Some x, Some (str, r) => Some (String x str, r)
            | _, _ => None
            end
        | e :: s'' =>
            match unescape e, scan_string s'' with
            | Some x, Some (str, r) => Some (String x str, r)
            | _, _ => None
            end
        | [] => None
        end
      else if (N_of_ascii c <? 32)%N then None
      else
        match scan_string s' with
        | Some (str, r) => Some (String c str, r)
        | None => None
        end
  end.

(** Number literals, as [NUMBER_RE] reads them: an optional minus sign; a
    zero, or a non-zero digit and further digits; optionally a point and
    one digit or more; optionally [e] or [E], an optional sign and one
    digit or more.  A literal with a fraction or an exponent is a float,
    one without is an int. *)
Fixpoint skip_digits (s : list ascii) : list ascii :=
  match s with
  | c :: s' => if is_digit c then skip_digits s' else s
  | [] => []
  end.

Definition skip_digits1 (s : list ascii) : option (list ascii) :=
  match s with
  | c :: s' => if is_digit c then Some (skip_digits s') else None
  | [] => None
  end.

Definition skip_sign (signs : list ascii) (s : list ascii) : list ascii :=
  match s with
  | c :: s' => if existsb (Ascii.eqb c) signs then s' else s
  | [] => []
  end.

Definition skip_integer (s : list ascii) : option (list ascii) :=
  match skip_sign ["-"] s with
  | c :: s' => if Ascii.eqb c "0" then Some s' else skip_digits1 (c :: s')
  | [] => None
  end.

Definition skip_fraction (s : list ascii) : option (bool * list ascii) :=
  match s with
  | c :: s' =>
      if Ascii.eqb c "." then
        match skip_digits1 s' with
        | Some r => Some (true, r)
        | None => None
        end
      else Some (false, s)
  | [] => Some (false, [])
  end.

Definition skip_exponent (s : list ascii) : option (bool * list ascii) :=
  match s with
  | c :: s' =>
      if Ascii.eqb c "e" || Ascii.eqb c "E" then
        match skip_digits1 (skip_sign ["-"; "+"] s') with
        | Some r => Some (true, r)
        | None => None
        end
      else Some (false, s)
  | [] => Some (false, [])
  end.

(** [Some false] on an int literal, [Some true] on a float literal,
    [None] on anything else. *)
Definition number_kind (tok : list ascii) : option bool :=
  match skip_integer tok with
  | Some r1 =>
      match skip_fraction r1 with
      | Some (f, r2) =>
          match skip_exponent r2 with
          | Some (e, []) => Some (f || e)
          | _ => None
          end
      | None => None
      end
  | None => None
  end.

Definition is_number_char (c : ascii) : bool :=
  is_digit c || Ascii.eqb c "-" || Ascii.eqb c "+" || Ascii.eqb c "."
  || Ascii.eqb c "e" || Ascii.eqb c "E".

Fixpoint span_number (s : list ascii) : list ascii * list ascii :=
  match s with
  | c :: s' =>
      if is_number_char c
      then let (tok, r) := span_number s' in (c :: tok, r)
      else ([], s)
  | [] => ([], [])
  end.

Definition number_ahead (s : list ascii) : bool :=
  match s with
  | c :: _ => is_number_char c
  | [] => false
  end.

(** The longest run of number characters must be one literal: what
    [NUMBER_RE] leaves of such a run is followed by a number character, and
    no value may be followed by one. *)
Definition scan_number (s : list ascii) : option (json * list ascii) :=
  let (tok, r) := span_number s in
  match number_kind tok with
  | Some true => Some (JFloat (string_of_list_ascii tok), r)
  | Some false =>
      match NilZero.int_of_string (string_of_list_ascii tok) with
      | Some d => Some (JInt (Z.of_int d), r)
      | None => None
      end
  | None => None
  end.

Fixpoint strip_prefix (p s : list ascii) : option (list ascii) :=
  match p, s with
  | [], _ => Some s
  | a :: p', b :: s' => if Ascii.eqb a b then strip_prefix p' s' else None
  | _ :: _, [] => None
  end.

Definition starts_with (c : ascii) (s : list ascii) : bool :=
  match s with
  | c' :: _ => Ascii.eqb c' c
  | [] => false
  end.

Section Containers.

(** [scan_once] for the elements. *)
Variable scan : list ascii -> option (json * list ascii).

(** [JSONArray], from the first element on. *)
Fixpoint scan_items (n : nat) (s : list ascii)
  : option (list json * list ascii) :=
  match n with
  | O => None
  | S n' =>
      match scan s with
      | Some (v, r) =>
          match skip_ws r with
          | c :: r' =>
              if Ascii.eqb c "]" then Some ([v], r')
              else if Ascii.eqb c "," then
                match scan_items n' (skip_ws r') with
                | Some (vs, r'') => Some (v :: vs, r'')
                | None => None
                end
              else None
          | [] => None
          end
      | None => None
      end
  end.

(** One [key: value] pair, from the key's opening quote on. *)
Definition scan_member (s : list ascii)
  : option ((string * json) * list ascii) :=
  match s with
  | c :: s1 =>
      if Ascii.eqb c "034" then
        match scan_string s1 with
        | Some (k, r) =>
            match skip_ws r with
            | c' :: r1 =>
                if Ascii.eqb c' ":" then
                  match scan (skip_ws r1) with
                  | Some (v, r2) => Some ((k, v), r2)
                  | None => None
                  end
                else None
            | [] => None
            end
        | None => None
        end
      else None
  | [] => None
  end.

(** [JSONObject], from the first key on. *)
Fixpoint scan_members (n : nat) (s : list ascii)
  : option (list (string * json) * list ascii) :=
  match n with
  | O => None
  | S n' =>
      match scan_member s with
      | Some (kv, r) =>
          match skip_ws r with
          | c :: r' =>
              if Ascii.eqb c "}" then Some ([kv], r')
              else if Ascii.eqb c "," then
                match scan_members n' (skip_ws r') with
                | Some (kvs, r'') => Some (kv :: kvs, r'')
                | None => None
                end
              else None
          | [] => None
          end
      | None => None
      end
  end.

End Containers.

(** [scan_once]: one value at the head of [s].  [fuel] bounds the nesting
    depth and the number of elements of a container; the length of the text
    bounds both. *)
Fixpoint scan_once (fuel : nat) (s : list ascii)
  : option (json * list ascii) :=
  match fuel with
  | O => None
  | S fuel' =>
      match s with
      | [] => None
      | c :: s' =>
          if Ascii.eqb c "034" then
            match scan_string s' with
            | Some (str, r) => Some (JStr str, r)
            | None => None
            end
          else if Ascii.eqb c "{" then
            if starts_with "}" (skip_ws s') then
              Some (JObj [], tail (skip_ws s'))
            else
              match scan_members (scan_once fuel') fuel' (skip_ws s') with
              | Some (kvs, r) => Some (JObj (Dict.of_pairs kvs), r)
              | None => None
              end
          else if Ascii.eqb c "[" then
            if starts_with "]" (skip_ws s') then
              Some (JArr [], tail (skip_ws s'))
            else
              match scan_items (scan_once fuel') fuel' (skip_ws s') with
              | Some (vs, r) => Some (JArr vs, r)
              | None => None
              end
          else
            match strip_prefix (chars "null") s,
                  strip_prefix (chars "true") s,
                  strip_prefix (chars "false") s with
            | Some r, _, _ => Some (JNull, r)
            | _, Some r, _ => Some (JBool true, r)
            | _, _, Some r => Some (JBool false, r)
            | _, _, _ => scan_number s
            end
      end
  end.

(** [json.loads]: one value, white space around it, nothing else. *)
Definition loads (s : text) : option json :=
  match scan_once (S (length s)) (skip_ws s) with
  | Some (v, r) => match skip_ws r with [] => Some v | _ => None end
  | None => None
  end.

(** The number of nodes of a value. *)
Fixpoint size (v : json) : nat :=
  match v with
  | JArr items => S (list_sum (map size items))
  | JObj members => S (list_sum (map (fun kv => size (snd kv)) members))
  | _ => 1
  end.

(** The characters a literal can start with, and those a value can. *)
Definition number_start (c : ascii) : bool := Ascii.eqb c "-" || is_digit c.

Definition value_start (c : ascii) : bool :=
  Ascii.eqb c "034" || Ascii.eqb c "{" || Ascii.eqb c "[" || Ascii.eqb c "n"
  || Ascii.eqb c "t" || Ascii.eqb c "f" || number_start c.

(** The values Python can hold: a [dict] has no key twice, and a float has
    a literal. *)
Fixpoint well_formed (v : json) : bool :=
  match v with
  | JFloat lit =>
      match number_kind (chars lit) with
      | Some true => true
      | _ => false
      end
  | JArr items => forallb well_formed items
  | JObj members =>
      Dict.keys_distinct members
      && forallb (fun kv => well_formed (snd kv)) members
  | _ => true
  end.

(** [consumed s r]: [r] is what is left of [s] after a run of number
    characters. *)
Definition consumed (s r : list ascii) : Prop :=
  exists p, s = p ++ r /\ forallb is_number_char p = true.

(** [readable scan lvl v]: [scan] reads [v] back from its encoding at
    nesting level [lvl], whatever follows it. *)
Definition readable (scan : list ascii -> option (json * list ascii))
    (lvl : nat) (v : json) : Prop :=
  well_formed v = true
  /\ forall r, number_ahead r = false ->
              scan (encode lvl v ++ r) = Some (v, r).

End Json.

(** ** The process and its world

    A handler runs against the files of the working directory.  The wall
    clock is part of the world as well: the source never reads it, and the
    statements below say so.  [logging.error] writes to the error stream,
    which is not modelled, and neither are the failures of the file system
    other than a missing file. *)

Record world : Type := World {
  files : gmap string Json.text;
  clock : Z
}.

Inductive exn : Type :=
| FileNotFoundError
| JSONDecodeError
| BadRequest.

Inductive outcome (A : Type) : Type :=
| Return (a : A)
| Raise (e : exn).
Arguments Return {A} a.
Arguments Raise {A} e.

(** A computation: from a world to what it returns or raises, and the world
    it leaves. *)
Definition py (A : Type) : Type := world -> outcome A * world.

#[global] Instance py_ret : MRet py :=
  fun A (a : A) w => (Return a, w).

#[global] Instance py_raise : MThrow exn py :=
  fun A (e : exn) w => (Raise e, w).

#[global] Instance py_bind : MBind py :=
  fun A B (k : A -> py B) (m : py A) w =>
    match m w with
    | (Return a, w') => k a w'
    | (Raise e, w') => (Raise e, w')
    end.

(** [try: m except ...: h]; the handler answers [None] on an exception its
    clauses do not name, which then propagates. *)
Definition try_except {A} (m : py A) (h : exn -> option (py A)) : py A :=
  fun w =>
    match m w with
    | (Return a, w') => (Return a, w')
    | (Raise e, w') =>
        match h e with
        | Some k => k w'
        | None => (Raise e, w')
        end
    end.

(** [with open(path, 'r') as f: json.load(f)] *)
Definition load_json (path : string) : py json :=
  fun w =>
    match files w !! path with
    | None => (Raise FileNotFoundError, w)
    | Some t =>
        match Json.loads t with
        | Some v => (Return v, w)
        | None => (Raise JSONDecodeError, w)
        end
    end.

(** [with open(path, 'w') as f: json.dump(data, f, indent=2)] *)
Definition dump_json (path : string) (data : json) : py unit :=
  fun w => (Return tt, World (<[path := Json.dumps data]> (files w)) (clock w)).

(** [content[k] = v] on a value known to be a [dict]. *)
Definition set_item (k : string) (v : json) (content : json) : json :=
  match content with
  | JObj d => JObj (Dict.set k v d)
  | _ => content
  end.

(** ** app_simple.py *)

Definition SCHEDULES_FILE : string := "user_schedule_recipe.json".

Definition DEVICE_CONFIG_FILE : string := "device_config.json".

(** The [metadata] literal, written out at lines 31 to 35 and again at
    lines 63 to 67. *)
Definition placeholder_metadata : json :=
  JObj [("version", JStr "1.0");
        ("created_at", JStr "2025-07-25T21:30:00.000000");
        ("updated_at", JStr "2025-07-25T21:30:00.000000")].

Definition default_data : json :=
  JObj [
    ("schedules", JArr [
       JObj [("id", JStr "unoccupied-default");
             ("event_name", JStr "Unoccupied");
             ("schedule_type", JStr "thermostat");
             ("repeat_frequency", JStr "daily");
             ("time_setting", JStr "all_day");
             ("start_time", JNull);
             ("end_time", JNull);
             ("settings", JObj [
                ("system_mode", JStr "Heat");
                ("heat_setpoint", JStr "65");
                ("cool_setpoint", JStr "78");
                ("fan", JStr "auto");
                ("humidity_setpoint", JStr "45");
                ("ventilation_rate", JStr "0")]);
             ("days_of_week", JArr []);
             ("is_default", JBool true);
             ("exclude_dates", JArr [])]]);
    ("metadata", JObj [
       ("version", JStr "1.0");
       ("created_at", JStr "2025-07-25T21:30:00.000000");
       ("updated_at", JStr "2025-07-25T21:30:00.000000")])].

Definition save_schedules (data : json) : py unit :=
  dump_json SCHEDULES_FILE data.

(** Lines 24 to 37 of [load_schedules]: what is done to the parsed content
    before it is returned. *)
Definition normalize (content : json) : json :=
  if is_dict content && negb (has_key "schedules" content) then
    if has_key "event_name" content then
      let content := set_item "id" (JStr "1") content in
      JObj [("schedules", JArr [content]);
            ("metadata", JObj [
               ("version", JStr "1.0");
               ("created_at", JStr "2025-07-25T21:30:00.000000");
               ("updated_at", JStr "2025-07-25T21:30:00.000000")])]
    else content
  else content.

Definition load_schedules : py json :=
  try_except
    (content ← load_json SCHEDULES_FILE;
     mret (normalize content))
    (fun e =>
       match e with
       | FileNotFoundError =>
           Some (save_schedules default_data;; mret default_data)
       | _ => None
       end).

(** What a handler hands back to Flask: [jsonify(body)], with a status. *)
Record response : Type := Response {
  status : nat;
  body : json
}.

Definition jsonify (v : json) : response := Response 200 v.

Definition get_schedules : py response :=
  try_except
    (data ← load_schedules;
     mret (jsonify data))
    (fun _ =>
       Some (mret (Response 500
                    (JObj [("error", JStr "Failed to retrieve schedules")])))).

(** [request.get_json()] on the body of the request. *)
Definition get_json (request : Json.text) : py json :=
  match Json.loads request with
  | Some v => mret v
  | None => mthrow BadRequest
  end.

Definition save_schedules_data (request : Json.text) : py response :=
  try_except
    (data ← get_json request;
     save_schedules data;;
     mret (jsonify (JObj [("success", JBool true);
                         ("message", JStr "Schedules saved successfully")])))
    (fun _ =>
       Some (mret (Response 500
                    (JObj [("error", JStr "Failed to save schedules")])))).

Definition default_config : json :=
  JObj [("device", JObj [
     ("timezone", JStr "America/New_York");
     ("location", JObj [("name", JStr "Default Location");
                        ("latitude", JFloat "40.7128");
                        ("longitude", JFloat "-74.006")]);
     ("id", JStr "hvac-device-default");
     ("name", JStr "HVAC Controller")])].

Definition get_device_config : py response :=
  try_except
    (config ← load_json DEVICE_CONFIG_FILE;
     mret (jsonify config))
    (fun e =>
       match e with
       | FileNotFoundError => Some (mret (jsonify default_config))
       | _ =>
           Some (mret (Response 500
                        (JObj [("error",
                                JStr "Failed to get device configuration")])))
       end).

(** * Proofs *)

(** ** Dictionaries *)

Module DictFacts.

Lemma mem_get {A} k (d : list (string * A)) :
  Dict.mem k d = true <-> exists v, Dict.get k d = Some v.
Proof.
  induction d as [|[k' v'] d IH]; simpl.
  - split; [discriminate | intros [v Hv]; discriminate].
  - destruct (String.eqb k k'); [split; eauto | exact IH].
Qed.

Lemma get_set_eq {A} k (v : A) d : Dict.get k (Dict.set k v d) = Some v.
Proof.
  induction d as [|[k' v'] d IH]; simpl.
  - now rewrite String.eqb_refl.
  - destruct (String.eqb k k') eqn:E; simpl; rewrite E; auto.
Qed.

Lemma get_set_ne {A} k k' (v : A) d :
  k <> k' -> Dict.get k' (Dict.set k v d) = Dict.get k' d.
Proof.
  intros Hne. induction d as [|[k0 v0] d IH]; simpl.
  - destruct (String.eqb_spec k' k); congruence.
  - destruct (String.eqb_spec k k0) as [->|]; simpl.
    + destruct (String.eqb_spec k' k0); congruence.
    + now rewrite IH.
Qed.

Lemma mem_set {A} k k' (v : A) d :
  Dict.mem k' (Dict.set k v d) = String.eqb k' k || Dict.mem k' d.
Proof.
  induction d as [|[k0 v0] d IH]; simpl.
  - now destruct (String.eqb k' k).
  - destruct (String.eqb_spec k k0) as [->|]; simpl.
    + now destruct (String.eqb k' k0).
    + rewrite IH. destruct (String.eqb k' k0), (String.eqb k' k); auto.
Qed.

(** Setting a key that is not there appends the pair. *)
Lemma set_fresh {A} k (v : A) d :
  Dict.mem k d = false -> Dict.set k v d = d ++ [(k, v)].
Proof.
  induction d as [|[k' v'] d IH]; simpl; [easy|].
  destruct (String.eqb k k'); [discriminate|].
  intros H. now rewrite IH.
Qed.

Lemma mem_app {A} k (d1 d2 : list (string * A)) :
  Dict.mem k (d1 ++ d2) = Dict.mem k d1 || Dict.mem k d2.
Proof.
  induction d1 as [|[k' v'] d1 IH]; simpl; [easy|].
  now destruct (String.eqb k k').
Qed.

Lemma of_pairs_from {A} (pairs acc : list (string * A)) :
  Dict.keys_distinct pairs = true ->
  (forall k, Dict.mem k pairs = true -> Dict.mem k acc = false) ->
  fold_left (fun d kv => Dict.set (fst kv) (snd kv) d) pairs acc
  = acc ++ pairs.
Proof.
  revert acc. induction pairs as [|[k v] pairs IH]; intros acc Hd Hacc; simpl.
  - now rewrite app_nil_r.
  - simpl in Hd. apply andb_true_iff in Hd as [Hk Hd].
    apply negb_true_iff in Hk.
    rewrite set_fresh.
    + rewrite IH; [now rewrite <- app_assoc | exact Hd |].
      intros k' Hk'. rewrite mem_app. simpl.
      rewrite Hacc.
      * destruct (String.eqb_spec k' k) as [->|]; [congruence | easy].
      * simpl. rewrite Hk'. now destruct (String.eqb k' k).
    + apply Hacc. simpl. now rewrite String.eqb_refl.
Qed.

(** Building a dictionary from pairs with distinct keys keeps the pairs. *)
Lemma of_pairs_distinct {A} (pairs : list (string * A)) :
  Dict.keys_distinct pairs = true -> Dict.of_pairs pairs = pairs.
Proof.
  intros Hd. unfold Dict.of_pairs.
  now rewrite of_pairs_from.
Qed.

Lemma keys_distinct_set {A} k (v : A) d :
  Dict.keys_distinct d = true -> Dict.keys_distinct (Dict.set k v d) = true.
Proof.
  induction d as [|[k' v'] d IH]; simpl; [easy|].
  intros H. apply andb_true_iff in H as [Hk Hd].
  destruct (String.eqb_spec k k') as [->|Hne]; simpl.
  - now rewrite Hk, Hd.
  - rewrite mem_set, IH by exact Hd.
    destruct (String.eqb_spec k' k); [congruence|].
    simpl. now rewrite Hk.
Qed.

Lemma forall_values_set {A} (P : A -> bool) k v d :
  P v = true ->
  forallb (fun kv => P (snd kv)) d = true ->
  forallb (fun kv => P (snd kv)) (Dict.set k v d) = true.
Proof.
  intros Hv. induction d as [|[k' v'] d IH]; simpl.
  - now rewrite Hv.
  - intros H. apply andb_true_iff in H as [Hv' Hd].
    destruct (String.eqb k k'); simpl.
    + now rewrite Hv, Hd.
    + now rewrite Hv', IH.
Qed.

(** [dict(pairs)] has distinct keys and values among those of [pairs]. *)
Lemma of_pairs_invariant {A} (P : A -> bool) (pairs : list (string * A)) :
  forallb (fun kv => P (snd kv)) pairs = true ->
  Dict.keys_distinct (Dict.of_pairs pairs) = true
  /\ forallb (fun kv => P (snd kv)) (Dict.of_pairs pairs) = true.
Proof.
  unfold Dict.of_pairs.
  assert (Hacc : Dict.keys_distinct (@nil (string * A)) = true
                 /\ forallb (fun kv => P (snd kv)) (@nil (string * A)) = true)
    by (split; reflexivity).
  revert Hacc. generalize (@nil (string * A)) as acc.
  induction pairs as [|[k v] pairs IH]; intros acc [Hd Hp] H; simpl.
  - now split.
  - simpl in H. apply andb_true_iff in H as [Hv H].
    apply IH; [|exact H]. split.
    + now apply keys_distinct_set.
    + now apply forall_values_set.
Qed.

(** Setting a key that is there leaves the keys as they are. *)
Lemma keys_set_present {A} k (v : A) d :
  Dict.mem k d = true -> map fst (Dict.set k v d) = map fst d.
Proof.
  induction d as [|[k' v'] d IH]; simpl; [discriminate|].
  destruct (String.eqb k k'); simpl; [reflexivity|].
  intros H. now rewrite IH.
Qed.

End DictFacts.

(** ** The decoder reads what the encoder writes *)

Module JsonFacts.

Import Json.
Local Open Scope char_scope.

(** *** White space *)

Lemma skip_ws_spaces n s : skip_ws (repeat " " n ++ s) = skip_ws s.
Proof. induction n; simpl; auto. Qed.

Lemma skip_ws_newline_indent lvl s :
  skip_ws (newline_indent lvl ++ s) = skip_ws s.
Proof. unfold newline_indent. simpl. apply skip_ws_spaces. Qed.

Lemma skip_ws_stop c s : is_ws c = false -> skip_ws (c :: s) = c :: s.
Proof. intros H. simpl. now rewrite H. Qed.

(** *** Strings *)

Lemma scan_string_escape_char c r :
  scan_string (escape_char c ++ r)
  = match scan_string r with
    | Some (str, r') => Some (String c str, r')
    | None => None
    end.
Proof.
  destruct c as [b0 b1 b2 b3 b4 b5 b6 b7].
  destruct b0, b1, b2, b3, b4, b5, b6, b7; reflexivity.
Qed.

Lemma scan_string_escaped l r :
  scan_string (flat_map escape_char l ++ "034" :: r)
  = Some (string_of_list_ascii l, r).
Proof.
  induction l as [|c l IH]; simpl.
  - reflexivity.
  - rewrite <- app_assoc, scan_string_escape_char, IH. reflexivity.
Qed.

Lemma scan_encoded_string s r :
  scan_string (tail (encode_string s) ++ r) = Some (s, r).
Proof.
  unfold encode_string. simpl. rewrite <- app_assoc. simpl.
  rewrite scan_string_escaped. unfold chars.
  now rewrite string_of_list_ascii_of_string.
Qed.

(** *** Numbers *)

Lemma span_number_token tok r :
  forallb is_number_char tok = true ->
  number_ahead r = false ->
  span_number (tok ++ r) = (tok, r).
Proof.
  intros Htok Hr. induction tok as [|c tok IH]; cbn [app span_number].
  - destruct r as [|c r]; [reflexivity|].
    cbn [number_ahead] in Hr. cbn [span_number]. now rewrite Hr.
  - cbn [forallb] in Htok. apply andb_true_iff in Htok as [Hc Htok].
    now rewrite Hc, IH.
Qed.

Lemma digit_number_char c : is_digit c = true -> is_number_char c = true.
Proof. intros H. unfold is_number_char. now rewrite H. Qed.

Lemma consumed_refl s : consumed s s.
Proof. now exists []. Qed.

Lemma consumed_trans s r t : consumed s r -> consumed r t -> consumed s t.
Proof.
  intros (p & -> & Hp) (q & -> & Hq). exists (p ++ q). split.
  - now rewrite <- app_assoc.
  - rewrite forallb_app. now rewrite Hp, Hq.
Qed.

Lemma consumed_cons c s r :
  is_number_char c = true -> consumed s r -> consumed (c :: s) r.
Proof.
  intros Hc (p & -> & Hp). exists (c :: p). split; [reflexivity|].
  cbn [forallb]. now rewrite Hc.
Qed.

Lemma consumed_all tok : consumed tok [] -> forallb is_number_char tok = true.
Proof. intros (p & -> & Hp). now rewrite app_nil_r. Qed.

Lemma skip_digits_consumed s : consumed s (skip_digits s).
Proof.
  induction s as [|c s IH]; simpl.
  - apply consumed_refl.
  - destruct (is_digit c) eqn:Hc; [|apply consumed_refl].
    apply consumed_cons; [now apply digit_number_char | exact IH].
Qed.

Lemma skip_digits1_consumed s r : skip_digits1 s = Some r -> consumed s r.
Proof.
  destruct s as [|c s]; simpl; [discriminate|].
  destruct (is_digit c) eqn:Hc; [|discriminate].
  intros [= <-]. apply consumed_cons; [now apply digit_number_char|].
  apply skip_digits_consumed.
Qed.

Lemma skip_sign_consumed signs s :
  forallb is_number_char signs = true -> consumed s (skip_sign signs s).
Proof.
  intros Hs. destruct s as [|c s]; simpl; [apply consumed_refl|].
  destruct (existsb (Ascii.eqb c) signs) eqn:Hc; [|apply consumed_refl].
  apply consumed_cons; [|apply consumed_refl].
  apply existsb_exists in Hc as (x & Hx & Hcx).
  apply Ascii.eqb_eq in Hcx as ->.
  rewrite forallb_forall in Hs. now apply Hs.
Qed.

Lemma skip_integer_consumed s r : skip_integer s = Some r -> consumed s r.
Proof.
  unfold skip_integer. intros H.
  eapply consumed_trans; [apply (skip_sign_consumed ["-"]); reflexivity|].
  destruct (skip_sign ["-"] s) as [|c s']; [discriminate|].
  destruct (Ascii.eqb_spec c "0") as [->|].
  - injection H as <-. apply consumed_cons; [reflexivity|apply consumed_refl].
  - now apply skip_digits1_consumed.
Qed.

Lemma skip_fraction_consumed s f r :
  skip_fraction s = Some (f, r) -> consumed s r.
Proof.
  destruct s as [|c s]; simpl.
  - intros [= _ <-]. apply consumed_refl.
  - destruct (Ascii.eqb_spec c ".") as [->|].
    + destruct (skip_digits1 s) eqn:E; [|discriminate].
      intros [= _ <-]. apply consumed_cons; [reflexivity|].
      now apply skip_digits1_consumed.
    + intros [= _ <-]. apply consumed_refl.
Qed.

Lemma skip_exponent_consumed s e r :
  skip_exponent s = Some (e, r) -> consumed s r.
Proof.
  destruct s as [|c s]; simpl.
  - intros [= _ <-]. apply consumed_refl.
  - destruct (Ascii.eqb c "e" || Ascii.eqb c "E") eqn:Hc.
    + destruct (skip_digits1 _) eqn:E; [|discriminate].
      intros [= _ <-]. apply consumed_cons.
      * apply orb_true_iff in Hc as [Hc|Hc];
          apply Ascii.eqb_eq in Hc as ->; reflexivity.
      * eapply consumed_trans; [|apply skip_digits1_consumed, E].
        apply (skip_sign_consumed ["-"; "+"]). reflexivity.
    + intros [= _ <-]. apply consumed_refl.
Qed.

(** A literal is made of number characters only. *)
Lemma number_kind_chars tok k :
  number_kind tok = Some k -> forallb is_number_char tok = true.
Proof.
  unfold number_kind. intros H.
  destruct (skip_integer tok) as [r1|] eqn:E1; [|discriminate].
  destruct (skip_fraction r1) as [[f r2]|] eqn:E2; [|discriminate].
  destruct (skip_exponent r2) as [[e r3]|] eqn:E3; [|discriminate].
  destruct r3; [|discriminate].
  apply consumed_all.
  eapply consumed_trans; [apply skip_integer_consumed, E1|].
  eapply consumed_trans; [eapply skip_fraction_consumed, E2|].
  eapply skip_exponent_consumed, E3.
Qed.

(** A literal starts with a minus sign or a digit. *)
Lemma number_kind_start tok k :
  number_kind tok = Some k ->
  exists c tok', tok = c :: tok' /\ number_start c = true.
Proof.
  unfold number_kind, skip_integer. intros H.
  destruct tok as [|c tok]; [discriminate|].
  exists c, tok. split; [reflexivity|]. unfold number_start.
  cbn [skip_sign existsb] in H.
  destruct (Ascii.eqb c "-"); [reflexivity|].
  cbn [orb] in H |- *.
  destruct (Ascii.eqb_spec c "0") as [->|]; [reflexivity|].
  cbn [skip_digits1] in H.
  destruct (is_digit c); [reflexivity | discriminate H].
Qed.

(** Integers: the decimal digits of [Z.to_int]. *)

Lemma uint_digits d :
  forallb is_digit (chars (NilEmpty.string_of_uint d)) = true.
Proof. induction d; simpl; auto. Qed.

Lemma skip_digits_all l : forallb is_digit l = true -> skip_digits l = [].
Proof.
  induction l as [|c l IH]; cbn [forallb skip_digits]; [reflexivity|].
  intros H. apply andb_true_iff in H as [-> H]. auto.
Qed.

Lemma to_uint_no_leading_zero p d : Pos.to_uint p <> Decimal.D0 d.
Proof.
  intros H.
  assert (Hn : Decimal.unorm (Pos.to_uint p) = Pos.to_uint p).
  { rewrite <- Unsigned.to_of, Unsigned.of_to. reflexivity. }
  rewrite H, unorm_D0 in Hn.
  destruct (Decimal.uint_eq_dec (Decimal.nzhead d) Decimal.Nil) as [Hz|Hz].
  - apply unorm_0 in Hz. rewrite Hz in Hn. injection Hn as <-.
    now apply (Unsigned.to_uint_nonzero p).
  - rewrite (unorm_nzhead _ Hz) in Hn. now apply nzhead_nonzero in Hn.
Qed.

(** A digit string without a leading zero is an int literal. *)
Lemma number_kind_uint d :
  d <> Decimal.Nil -> (forall d', d <> Decimal.D0 d') ->
  number_kind (chars (NilEmpty.string_of_uint d)) = Some false
  /\ number_kind ("-" :: chars (NilEmpty.string_of_uint d)) = Some false.
Proof.
  intros Hnil Hzero.
  pose proof (uint_digits d) as Hd.
  destruct d; try congruence; try (now exfalso; eapply Hzero);
    simpl in Hd; unfold number_kind, skip_integer; simpl;
    rewrite (skip_digits_all _ Hd); split; reflexivity.
Qed.

Lemma string_of_uint_nonnil d :
  d <> Decimal.Nil -> NilZero.string_of_uint d = NilEmpty.string_of_uint d.
Proof. now destruct d. Qed.

Lemma number_kind_int z : number_kind (encode_int z) = Some false.
Proof.
  unfold encode_int.
  destruct z as [|p|p]; [reflexivity| |];
    cbn [Z.to_int NilZero.string_of_int];
    rewrite (string_of_uint_nonnil _ (Unsigned.to_uint_nonnil p));
    apply number_kind_uint;
    auto using Unsigned.to_uint_nonnil, to_uint_no_leading_zero.
Qed.

Lemma int_of_encoded z :
  NilZero.int_of_string (string_of_list_ascii (encode_int z))
  = Some (Z.to_int z).
Proof.
  unfold encode_int, chars. rewrite string_of_list_ascii_of_string.
  apply NilZero.isi; destruct z; simpl; try discriminate;
    intros [= H]; now apply (Unsigned.to_uint_nonnil p).
Qed.

Lemma scan_number_int z r :
  number_ahead r = false ->
  scan_number (encode_int z ++ r) = Some (JInt z, r).
Proof.
  intros Hr. unfold scan_number.
  rewrite span_number_token;
    [|eapply number_kind_chars, number_kind_int | exact Hr].
  rewrite number_kind_int, int_of_encoded, DecimalZ.of_to. reflexivity.
Qed.

Lemma scan_number_float lit r :
  number_kind (chars lit) = Some true ->
  number_ahead r = false ->
  scan_number (chars lit ++ r) = Some (JFloat lit, r).
Proof.
  intros Hlit Hr. unfold scan_number.
  rewrite span_number_token; [|eapply number_kind_chars, Hlit | exact Hr].
  rewrite Hlit. unfold chars. now rewrite string_of_list_ascii_of_string.
Qed.

(** *** Where a value starts *)

Lemma value_start_facts c :
  value_start c = true ->
  is_ws c = false /\ Ascii.eqb c "]" = false /\ Ascii.eqb c "}" = false.
Proof.
  destruct c as [b0 b1 b2 b3 b4 b5 b6 b7].
  destruct b0, b1, b2, b3, b4, b5, b6, b7;
    first [discriminate 1 | intros _; repeat split].
Qed.

Lemma number_value_start c : number_start c = true -> value_start c = true.
Proof. unfold value_start. intros ->. now rewrite !orb_true_r. Qed.

Lemma scan_once_number fuel c s :
  number_start c = true ->
  scan_once (S fuel) (c :: s) = scan_number (c :: s).
Proof.
  destruct c as [b0 b1 b2 b3 b4 b5 b6 b7].
  destruct b0, b1, b2, b3, b4, b5, b6, b7;
    first [discriminate 1 | intros _; reflexivity].
Qed.

Lemma encode_start lvl v :
  well_formed v = true ->
  exists c t, encode lvl v = c :: t /\ value_start c = true.
Proof.
  destruct v as [|[|]|z|lit|s|[|x items]|[|kv members]]; cbn [encode];
    intros Hwf; try (now eexists _, _; split; [reflexivity|]).
  - destruct (number_kind_start _ _ (number_kind_int z)) as (c & t & -> & Hc).
    eauto using number_value_start.
  - cbn [well_formed] in Hwf.
    destruct (number_kind (chars lit)) as [[|]|] eqn:E; try discriminate.
    destruct (number_kind_start _ _ E) as (c & t & -> & Hc).
    eauto using number_value_start.
Qed.

Lemma skip_ws_encoded lvl v r :
  well_formed v = true -> skip_ws (encode lvl v ++ r) = encode lvl v ++ r.
Proof.
  intros Hwf. destruct (encode_start lvl v Hwf) as (c & t & -> & Hc).
  apply skip_ws_stop. now apply value_start_facts.
Qed.

(** *** Containers *)

Lemma join_cons sep p ps :
  join sep (p :: ps)
  = p ++ match ps with [] => [] | _ :: _ => sep ++ join sep ps end.
Proof. destruct ps; simpl; [now rewrite app_nil_r | reflexivity]. Qed.

Lemma number_ahead_newline lvl s :
  number_ahead (newline_indent lvl ++ s) = false.
Proof. reflexivity. Qed.

Lemma skip_ws_items lvl sep items s :
  items <> [] ->
  Forall (fun v => well_formed v = true) items ->
  skip_ws (join sep (map (encode lvl) items) ++ s)
  = join sep (map (encode lvl) items) ++ s.
Proof.
  intros Hne Hall. destruct items as [|x items]; [congruence|].
  cbn [map]. rewrite join_cons, <- app_assoc.
  apply skip_ws_encoded. now inversion Hall.
Qed.

Lemma scan_items_encoded scan lvl a b items r n :
  items <> [] ->
  Forall (readable scan lvl) items ->
  length items <= n ->
  scan_items scan n
    (join ("," :: newline_indent a) (map (encode lvl) items)
       ++ newline_indent b ++ "]" :: r)
  = Some (items, r).
Proof.
  revert n. induction items as [|x items IH]; intros n Hne Hall Hn;
    [congruence|].
  destruct n as [|n]; [simpl in Hn; lia|].
  inversion Hall as [|? ? [Hwf Hx] Hall']; subst.
  cbn [scan_items].
  destruct items as [|y items].
  - cbn [map join]. rewrite Hx by apply number_ahead_newline.
    rewrite (skip_ws_newline_indent b). reflexivity.
  - change (map (encode lvl) (x :: y :: items))
      with (encode lvl x :: map (encode lvl) (y :: items)).
    rewrite join_cons.
    change (map (encode lvl) (y :: items))
      with (encode lvl y :: map (encode lvl) items) at 1.
    cbv iota. rewrite <- !app_assoc, Hx by reflexivity.
    cbn [app]. rewrite skip_ws_stop by reflexivity.
    change (Ascii.eqb "," "]") with false.
    change (Ascii.eqb "," ",") with true. cbv iota.
    rewrite (skip_ws_newline_indent a).
    rewrite skip_ws_items;
      [| discriminate
       | eapply Forall_impl; [exact Hall' | intros ? [? _]; assumption]].
    rewrite IH; [reflexivity | discriminate | exact Hall' |].
    simpl in Hn |- *. lia.
Qed.

Lemma scan_member_encoded scan lvl k v r :
  readable scan lvl v ->
  number_ahead r = false ->
  scan_member scan (encode_member (encode lvl) (k, v) ++ r)
  = Some ((k, v), r).
Proof.
  intros [Hwf Hv] Hr. unfold encode_member, scan_member. cbn [fst snd].
  change (encode_string k) with ("034" :: tail (encode_string k)).
  rewrite <- app_assoc. cbn [app].
  change (Ascii.eqb "034" "034") with true. cbv iota.
  rewrite scan_encoded_string.
  rewrite skip_ws_stop by reflexivity.
  change (Ascii.eqb ":" ":") with true. cbv iota.
  change (skip_ws (" " :: encode lvl v ++ r))
    with (skip_ws (encode lvl v ++ r)).
  rewrite skip_ws_encoded by exact Hwf.
  now rewrite Hv.
Qed.

Lemma skip_ws_members lvl sep members s :
  members <> [] ->
  skip_ws (join sep (map (encode_member (encode lvl)) members) ++ s)
  = join sep (map (encode_member (encode lvl)) members) ++ s.
Proof.
  intros Hne. destruct members as [|kv members]; [congruence|].
  cbn [map]. rewrite join_cons, <- app_assoc.
  reflexivity.
Qed.

Lemma scan_members_encoded scan lvl a b members r n :
  members <> [] ->
  Forall (fun kv => readable scan lvl (snd kv)) members ->
  length members <= n ->
  scan_members scan n
    (join ("," :: newline_indent a)
       (map (encode_member (encode lvl)) members)
       ++ newline_indent b ++ "}" :: r)
  = Some (members, r).
Proof.
  revert n. induction members as [|[k v] members IH]; intros n Hne Hall Hn;
    [congruence|].
  destruct n as [|n]; [simpl in Hn; lia|].
  inversion Hall as [|? ? Hv Hall']; subst. cbn [snd] in Hv.
  cbn [scan_members].
  destruct members as [|kv members].
  - cbn [map join].
    rewrite scan_member_encoded by (exact Hv || reflexivity).
    rewrite (skip_ws_newline_indent b). reflexivity.
  - change (map (encode_member (encode lvl)) ((k, v) :: kv :: members))
      with (encode_member (encode lvl) (k, v)
              :: map (encode_member (encode lvl)) (kv :: members)).
    rewrite join_cons.
    change (map (encode_member (encode lvl)) (kv :: members))
      with (encode_member (encode lvl) kv
              :: map (encode_member (encode lvl)) members) at 1.
    cbv iota. rewrite <- !app_assoc.
    rewrite scan_member_encoded by (exact Hv || reflexivity).
    cbn [app]. rewrite skip_ws_stop by reflexivity.
    change (Ascii.eqb "," "}") with false.
    change (Ascii.eqb "," ",") with true. cbv iota.
    rewrite (skip_ws_newline_indent a).
    rewrite skip_ws_members by discriminate.
    rewrite IH; [reflexivity | discriminate | exact Hall' |].
    simpl in Hn |- *. lia.
Qed.

(** *** Values *)

Lemma size_member_le {A} (f : A -> nat) x l :
  In x l -> f x <= list_sum (map f l).
Proof.
  induction l as [|y l IH]; simpl; [easy|].
  intros [->|H]; [lia | specialize (IH H); lia].
Qed.

Lemma length_le_size_sum {A} (f : A -> nat) l :
  (forall x, In x l -> 1 <= f x) -> length l <= list_sum (map f l).
Proof.
  induction l as [|y l IH]; simpl; [lia|].
  intros H. pose proof (H y (or_introl eq_refl)).
  assert (length l <= list_sum (map f l)) by (apply IH; auto). lia.
Qed.

Lemma size_pos v : 1 <= size v.
Proof. destruct v; simpl; lia. Qed.

Lemma scan_encoded v :
  well_formed v = true ->
  forall lvl fuel r,
    size v <= fuel ->
    number_ahead r = false ->
    scan_once fuel (encode lvl v ++ r) = Some (v, r).
Proof.
  induction v as [|b|z|lit|s|items IH|members IH] using json_ind;
    intros Hwf lvl fuel r Hfuel Hr;
    (destruct fuel as [|fuel];
     [pose proof (size_pos JNull); simpl in Hfuel; lia|]).
  - reflexivity.
  - destruct b; reflexivity.
  - destruct (number_kind_start _ _ (number_kind_int z)) as (c & t & E & Hc).
    cbn [encode]. rewrite E. cbn [app].
    rewrite scan_once_number by exact Hc.
    change (c :: t ++ r) with ((c :: t) ++ r). rewrite <- E.
    now apply scan_number_int.
  - cbn [well_formed] in Hwf.
    destruct (number_kind (chars lit)) as [[|]|] eqn:Hk; try discriminate.
    destruct (number_kind_start _ _ Hk) as (c & t & E & Hc).
    cbn [encode]. rewrite E. cbn [app].
    rewrite scan_once_number by exact Hc.
    change (c :: t ++ r) with ((c :: t) ++ r). rewrite <- E.
    now apply scan_number_float.
  - cbn [encode].
    change (encode_string s) with ("034" :: tail (encode_string s)).
    cbn [app scan_once]. change (Ascii.eqb "034" "034") with true. cbv iota.
    now rewrite scan_encoded_string.
  - destruct items as [|x items]; [reflexivity|].
    cbn [well_formed] in Hwf. cbn [size] in Hfuel.
    cbn [encode]. cbn [app scan_once].
    change (Ascii.eqb "[" "034") with false.
    change (Ascii.eqb "[" "{") with false.
    change (Ascii.eqb "[" "[") with true. cbv iota.
    rewrite <- !app_assoc. rewrite (skip_ws_newline_indent (S lvl)).
    assert (Hall : Forall (readable (scan_once fuel) (S lvl)) (x :: items)).
    { rewrite List.Forall_forall in IH |- *. intros v Hv.
      rewrite forallb_forall in Hwf. split; [now apply Hwf|].
      intros r' Hr'. apply IH; auto.
      pose proof (size_member_le size v _ Hv). lia. }
    rewrite skip_ws_items;
      [| discriminate
       | eapply Forall_impl; [exact Hall | intros ? [? _]; assumption]].
    replace (starts_with "]" _) with false.
    2:{ cbn [map]. rewrite join_cons, <- app_assoc.
        inversion Hall as [|? ? [Hx _] _]; subst.
        destruct (encode_start (S lvl) x Hx) as (c & t & -> & Hc).
        cbn [app starts_with]. symmetry. now apply value_start_facts. }
    cbn [app].
    rewrite scan_items_encoded; [reflexivity | discriminate | exact Hall |].
    pose proof (length_le_size_sum size (x :: items)
                  (fun v _ => size_pos v)). lia.
  - destruct members as [|kv members]; [reflexivity|].
    cbn [well_formed] in Hwf. apply andb_true_iff in Hwf as [Hkeys Hwf].
    cbn [size] in Hfuel.
    cbn [encode]. cbn [app scan_once].
    change (Ascii.eqb "{" "034") with false.
    change (Ascii.eqb "{" "{") with true. cbv iota.
    rewrite <- !app_assoc. rewrite (skip_ws_newline_indent (S lvl)).
    assert (Hall : Forall (fun kv => readable (scan_once fuel) (S lvl) (snd kv))
                     (kv :: members)).
    { rewrite List.Forall_forall in IH |- *. intros kv' Hkv.
      rewrite forallb_forall in Hwf. split; [now apply Hwf|].
      intros r' Hr'. apply IH; auto.
      pose proof (size_member_le (fun kv => size (snd kv)) kv' _ Hkv). lia. }
    rewrite skip_ws_members by discriminate.
    replace (starts_with "}" _) with false
      by (cbn [map]; rewrite join_cons; reflexivity).
    cbn [app].
    rewrite scan_members_encoded; [| discriminate | exact Hall |].
    + now rewrite DictFacts.of_pairs_distinct.
    + pose proof (length_le_size_sum (fun kv => size (snd kv))
                    (kv :: members) (fun kv _ => size_pos (snd kv))). lia.
Qed.

(** *** Whole documents *)

Lemma length_join sep parts :
  list_sum (map (@length ascii) parts) <= length (join sep parts).
Proof.
  induction parts as [|p parts IH]; [simpl; lia|].
  rewrite join_cons.
  change (map (@length ascii) (p :: parts))
    with (length p :: map (@length ascii) parts).
  unfold list_sum in *. cbn [fold_right]. rewrite length_app.
  destruct parts; [simpl; lia|]. rewrite length_app. lia.
Qed.

Lemma list_sum_le {A} (f g : A -> nat) l :
  (forall x, In x l -> f x <= g x) ->
  list_sum (map f l) <= list_sum (map g l).
Proof.
  induction l as [|y l IH]; simpl; [lia|].
  intros H. pose proof (H y (or_introl eq_refl)).
  assert (list_sum (map f l) <= list_sum (map g l)) by (apply IH; auto).
  lia.
Qed.

(** Every node of a value is written with one character at least. *)
Lemma size_le_length v :
  well_formed v = true -> forall lvl, size v <= length (encode lvl v).
Proof.
  induction v as [|b|z|lit|s|items IH|members IH] using json_ind;
    intros Hwf lvl;
    try (destruct (encode_start lvl _ Hwf) as (c & t & -> & _); simpl; lia).
  - destruct items as [|x items]; [simpl; lia|].
    cbn [well_formed] in Hwf. rewrite forallb_forall in Hwf.
    rewrite List.Forall_forall in IH.
    cbn [encode size]. cbn [length]. rewrite !length_app.
    pose proof (length_join ("," :: newline_indent (S lvl))
                  (map (encode (S lvl)) (x :: items))) as Hj.
    rewrite map_map in Hj.
    pose proof (list_sum_le size (fun v => length (encode (S lvl) v))
                  (x :: items) (fun v Hv => IH v Hv (Hwf v Hv) (S lvl))).
    lia.
  - destruct members as [|kv members]; [simpl; lia|].
    cbn [well_formed] in Hwf. apply andb_true_iff in Hwf as [_ Hwf].
    rewrite forallb_forall in Hwf. rewrite List.Forall_forall in IH.
    cbn [encode size]. cbn [length]. rewrite !length_app.
    pose proof (length_join ("," :: newline_indent (S lvl))
                  (map (encode_member (encode (S lvl))) (kv :: members)))
      as Hj.
    rewrite map_map in Hj.
    assert (Hle : forall kv' : string * json, In kv' (kv :: members) ->
              size (snd kv')
              <= length (encode_member (encode (S lvl)) kv')).
    { intros kv' Hkv. unfold encode_member. rewrite length_app.
      cbn [length]. specialize (IH kv' Hkv (Hwf kv' Hkv) (S lvl)). lia. }
    pose proof (list_sum_le _ _ _ Hle). lia.
Qed.

Example dumps_indents :
  dumps (JObj [("a"%string, JArr [JInt (-12); JNull]); ("b"%string, JObj [])])
  = chars "{" ++ newline_indent 1 ++ "034" :: chars "a" ++ "034"
      :: chars ": [" ++ newline_indent 2 ++ chars "-12," ++ newline_indent 2
      ++ chars "null" ++ newline_indent 1 ++ chars "]," ++ newline_indent 1
      ++ "034" :: chars "b" ++ "034" :: chars ": {}" ++ newline_indent 0
      ++ chars "}".
Proof. reflexivity. Qed.

Example loads_skips_white_space :
  loads (chars " [1 , 2.5e-7,{ } ,true] ")
  = Some (JArr [JInt 1; JFloat "2.5e-7"; JObj []; JBool true]).
Proof. reflexivity. Qed.

Example loads_last_value_wins :
  loads ("{" :: encode_string "a" ++ chars ":1," ++ encode_string "b"
           ++ chars ":2," ++ encode_string "a" ++ chars ":3}")
  = Some (JObj [("a"%string, JInt 3); ("b"%string, JInt 2)]).
Proof. reflexivity. Qed.

Example loads_refuses :
  map (fun s => loads (chars s))
    ["[1,]"; "01"; "1.e5"; "{"; ""; "nul"; "[1 2]"; "+1"; "NaN"]%string
  = [None; None; None; None; None; None; None; None; None].
Proof. reflexivity. Qed.

(** What [json.dump] writes, [json.load] reads back. *)
Lemma loads_dumps v : well_formed v = true -> loads (dumps v) = Some v.
Proof.
  intros Hwf. unfold loads, dumps.
  rewrite <- (app_nil_r (encode 0 v)) at 2.
  rewrite skip_ws_encoded by exact Hwf.
  rewrite scan_encoded; [reflexivity | exact Hwf | | reflexivity].
  pose proof (size_le_length v Hwf 0). lia.
Qed.

(** *** What the decoder returns is well formed *)

Lemma scan_number_well_formed s v r :
  scan_number s = Some (v, r) -> well_formed v = true.
Proof.
  unfold scan_number. destruct (span_number s) as [tok r'].
  destruct (number_kind tok) as [[|]|] eqn:Hk; [| |discriminate].
  - intros [= <- _]. cbn [well_formed]. unfold chars.
    now rewrite list_ascii_of_string_of_list_ascii, Hk.
  - destruct (NilZero.int_of_string _); [|discriminate].
    now intros [= <- _].
Qed.

Lemma scan_items_well_formed scan n :
  (forall s v r, scan s = Some (v, r) -> well_formed v = true) ->
  forall s vs r,
    scan_items scan n s = Some (vs, r) -> forallb well_formed vs = true.
Proof.
  intros Hscan. induction n as [|n IH]; intros s vs r; cbn [scan_items];
    [discriminate|].
  destruct (scan s) as [[v r1]|] eqn:Ev; [|discriminate].
  apply Hscan in Ev.
  destruct (skip_ws r1) as [|c r2]; [discriminate|].
  destruct (Ascii.eqb c "]").
  - intros [= <- _]. cbn [forallb]. now rewrite Ev.
  - destruct (Ascii.eqb c ","); [|discriminate].
    destruct (scan_items scan n (skip_ws r2)) as [[vs' r3]|] eqn:E;
      [|discriminate].
    intros [= <- _]. cbn [forallb]. rewrite Ev. now apply IH in E.
Qed.

Lemma scan_member_well_formed scan :
  (forall s v r, scan s = Some (v, r) -> well_formed v = true) ->
  forall s kv r,
    scan_member scan s = Some (kv, r) -> well_formed (snd kv) = true.
Proof.
  intros Hscan s kv r. unfold scan_member.
  destruct s as [|c s]; [discriminate|].
  destruct (Ascii.eqb c "034"); [|discriminate].
  destruct (scan_string s) as [[k r1]|]; [|discriminate].
  destruct (skip_ws r1) as [|c' r2]; [discriminate|].
  destruct (Ascii.eqb c' ":"); [|discriminate].
  destruct (scan (skip_ws r2)) as [[v r3]|] eqn:Ev; [|discriminate].
  intros [= <- _]. now apply Hscan in Ev.
Qed.

Lemma scan_members_well_formed scan n :
  (forall s v r, scan s = Some (v, r) -> well_formed v = true) ->
  forall s kvs r,
    scan_members scan n s = Some (kvs, r) ->
    forallb (fun kv => well_formed (snd kv)) kvs = true.
Proof.
  intros Hscan. induction n as [|n IH]; intros s kvs r; cbn [scan_members];
    [discriminate|].
  destruct (scan_member scan s) as [[kv r1]|] eqn:Ekv; [|discriminate].
  apply (scan_member_well_formed scan Hscan) in Ekv.
  destruct (skip_ws r1) as [|c r2]; [discriminate|].
  destruct (Ascii.eqb c "}").
  - intros [= <- _]. cbn [forallb]. now rewrite Ekv.
  - destruct (Ascii.eqb c ","); [|discriminate].
    destruct (scan_members scan n (skip_ws r2)) as [[kvs' r3]|] eqn:E;
      [|discriminate].
    intros [= <- _]. cbn [forallb]. rewrite Ekv. now apply IH in E.
Qed.

Lemma scan_once_well_formed fuel :
  forall s v r, scan_once fuel s = Some (v, r) -> well_formed v = true.
Proof.
  induction fuel as [|fuel IH]; intros s v r; cbn [scan_once];
    [discriminate|].
  destruct s as [|c s]; [discriminate|].
  destruct (Ascii.eqb c "034").
  { destruct (scan_string s) as [[str r']|]; [|discriminate].
    now intros [= <- _]. }
  destruct (Ascii.eqb c "{").
  { destruct (starts_with "}" (skip_ws s)); [now intros [= <- _]|].
    destruct (scan_members _ fuel (skip_ws s)) as [[kvs r']|] eqn:E;
      [|discriminate].
    intros [= <- _]. cbn [well_formed].
    apply (scan_members_well_formed _ _ IH) in E.
    destruct (DictFacts.of_pairs_invariant well_formed kvs E) as [-> ->].
    reflexivity. }
  destruct (Ascii.eqb c "[").
  { destruct (starts_with "]" (skip_ws s)); [now intros [= <- _]|].
    destruct (scan_items _ fuel (skip_ws s)) as [[vs r']|] eqn:E;
      [|discriminate].
    intros [= <- _]. cbn [well_formed].
    now apply (scan_items_well_formed _ _ IH) in E. }
  destruct (strip_prefix (chars "null") (c :: s)); [now intros [= <- _]|].
  destruct (strip_prefix (chars "true") (c :: s)); [now intros [= <- _]|].
  destruct (strip_prefix (chars "false") (c :: s)); [now intros [= <- _]|].
  apply scan_number_well_formed.
Qed.

Lemma loads_well_formed s v : loads s = Some v -> well_formed v = true.
Proof.
  unfold loads.
  destruct (scan_once _ (skip_ws s)) as [[v' r]|] eqn:E; [|discriminate].
  destruct (skip_ws r); [|discriminate].
  intros [= <-]. eapply scan_once_well_formed, E.
Qed.

End JsonFacts.


(** ** The schedule file *)

Lemma load_json_unfold path w :
  load_json path w
  = match files w !! path with
    | None => (Raise FileNotFoundError, w)
    | Some t =>
        match Json.loads t with
        | Some v => (Return v, w)
        | None => (Raise JSONDecodeError, w)
        end
    end.
Proof. reflexivity. Qed.

(** A file that parses is read, normalised and left alone. *)
Lemma load_schedules_existing w t d :
  files w !! SCHEDULES_FILE = Some t ->
  Json.loads t = Some d ->
  load_schedules w = (Return (normalize d), w).
Proof.
  intros Hf Hd. unfold load_schedules, try_except, mbind, py_bind.
  rewrite load_json_unfold, Hf, Hd. reflexivity.
Qed.

(** A file that does not parse makes [load_schedules] raise. *)
Lemma load_schedules_malformed w t :
  files w !! SCHEDULES_FILE = Some t ->
  Json.loads t = None ->
  load_schedules w = (Raise JSONDecodeError, w).
Proof.
  intros Hf Hd. unfold load_schedules, try_except, mbind, py_bind.
  rewrite load_json_unfold, Hf, Hd. reflexivity.
Qed.

(** Without a file, the default document is written and returned. *)
Lemma load_schedules_missing w :
  files w !! SCHEDULES_FILE = None ->
  load_schedules w
  = (Return default_data,
     World (<[SCHEDULES_FILE := Json.dumps default_data]> (files w)) (clock w)).
Proof.
  intros Hf. unfold load_schedules, try_except, mbind, py_bind.
  rewrite load_json_unfold, Hf. reflexivity.
Qed.

Lemma save_schedules_writes d w :
  save_schedules d w
  = (Return tt,
     World (<[SCHEDULES_FILE := Json.dumps d]> (files w)) (clock w)).
Proof. reflexivity. Qed.

(** Reading a file back right after it was written. *)
Lemma load_json_written path d fs c :
  Json.well_formed d = true ->
  load_json path (World (<[path := Json.dumps d]> fs) c)
  = (Return d, World (<[path := Json.dumps d]> fs) c).
Proof.
  intros Hwf. rewrite load_json_unfold. cbn [files].
  rewrite lookup_insert_eq, JsonFacts.loads_dumps by exact Hwf. reflexivity.
Qed.

Lemma normalize_with_schedules d :
  has_key "schedules" d = true -> normalize d = d.
Proof.
  intros H. unfold normalize. rewrite H.
  now rewrite andb_false_r.
Qed.

Lemma normalize_legacy d :
  is_dict d = true ->
  has_key "schedules" d = false ->
  has_key "event_name" d = true ->
  normalize d
  = JObj [("schedules", JArr [set_item "id" (JStr "1") d]);
          ("metadata", placeholder_metadata)].
Proof. intros H1 H2 H3. unfold normalize. now rewrite H1, H2, H3. Qed.

Lemma field_set_item_eq k v d :
  is_dict d = true -> field k (set_item k v d) = Some v.
Proof.
  destruct d; try discriminate. intros _. apply DictFacts.get_set_eq.
Qed.

Lemma field_set_item_ne k k' v d :
  k <> k' -> field k' (set_item k v d) = field k' d.
Proof.
  intros Hne. destruct d; try reflexivity. now apply DictFacts.get_set_ne.
Qed.

(** ** Normalisation of the parsed content *)

(** C1.  A mapping without the key [schedules] and with the key
    [event_name] is wrapped: the result's [schedules] is the one-element list
    holding the mapping with its [id] set to ["1"] (the [id] field reads
    ["1"], every other field reads as before), and its [metadata] is the
    fixed version and timestamps.  [load_schedules] returns this document
    when the file holds such a mapping. *)
Theorem C1_legacy_document_is_wrapped (d : json) :
  is_dict d = true ->
  has_key "schedules" d = false ->
  has_key "event_name" d = true ->
  exists schedule,
    field "schedules" (normalize d) = Some (JArr [schedule])
    /\ schedule = set_item "id" (JStr "1") d
    /\ field "id" schedule = Some (JStr "1")
    /\ (forall k, k <> "id" -> field k schedule = field k d)
    /\ field "metadata" (normalize d)
       = Some (JObj [("version", JStr "1.0");
                     ("created_at", JStr "2025-07-25T21:30:00.000000");
                     ("updated_at", JStr "2025-07-25T21:30:00.000000")])
    /\ (forall w t,
          files w !! SCHEDULES_FILE = Some t ->
          Json.loads t = Some d ->
          load_schedules w = (Return (normalize d), w)).
Proof.
  intros Hdict Hsched Hevent.
  exists (set_item "id" (JStr "1") d).
  rewrite (normalize_legacy d Hdict Hsched Hevent).
  repeat split.
  - now apply field_set_item_eq.
  - intros k Hk. apply field_set_item_ne. congruence.
  - intros w t Hf Ht.
    rewrite <- (normalize_legacy d Hdict Hsched Hevent).
    now apply load_schedules_existing with t.
Qed.

Lemma C1_witness :
  let d := JObj [("event_name", JStr "Morning");
                 ("schedule_type", JStr "thermostat")] in
  is_dict d = true
  /\ has_key "schedules" d = false
  /\ has_key "event_name" d = true
  /\ exists schedule,
      field "schedules" (normalize d) = Some (JArr [schedule])
      /\ schedule = set_item "id" (JStr "1") d
      /\ field "id" schedule = Some (JStr "1")
      /\ (forall k, k <> "id" -> field k schedule = field k d)
      /\ field "metadata" (normalize d)
         = Some (JObj [("version", JStr "1.0");
                       ("created_at", JStr "2025-07-25T21:30:00.000000");
                       ("updated_at", JStr "2025-07-25T21:30:00.000000")])
      /\ (forall w t,
            files w !! SCHEDULES_FILE = Some t ->
            Json.loads t = Some d ->
            load_schedules w = (Return (normalize d), w)).
Proof.
  intros d. split; [reflexivity|]. split; [reflexivity|].
  split; [reflexivity|].
  apply (C1_legacy_document_is_wrapped d); reflexivity.
Defined.

(** C3.  Any other content is returned as it is: a value that has the key
    [schedules], a mapping with neither [schedules] nor [event_name], and a
    value that is not a mapping. *)
Theorem C3_normalize_is_identity_elsewhere (d : json) :
  has_key "schedules" d = true
  \/ (is_dict d = true
      /\ has_key "schedules" d = false
      /\ has_key "event_name" d = false)
  \/ is_dict d = false ->
  normalize d = d
  /\ (forall w t,
        files w !! SCHEDULES_FILE = Some t ->
        Json.loads t = Some d ->
        load_schedules w = (Return d, w)).
Proof.
  intros Hshape.
  assert (Hid : normalize d = d).
  { unfold normalize.
    destruct Hshape as [H | [(H1 & H2 & H3) | H]].
    - rewrite H. now rewrite andb_false_r.
    - now rewrite H1, H2, H3.
    - now rewrite H. }
  split; [exact Hid|].
  intros w t Hf Ht. rewrite <- Hid at 1.
  now apply load_schedules_existing with t.
Qed.

Lemma C3_witness :
  let d := JObj [("name", JStr "Evening")] in
  (has_key "schedules" d = true
   \/ (is_dict d = true
       /\ has_key "schedules" d = false
       /\ has_key "event_name" d = false)
   \/ is_dict d = false)
  /\ normalize d = d
  /\ (forall w t,
        files w !! SCHEDULES_FILE = Some t ->
        Json.loads t = Some d ->
        load_schedules w = (Return d, w)).
Proof.
  intros d.
  assert (H : has_key "schedules" d = true
              \/ (is_dict d = true
                  /\ has_key "schedules" d = false
                  /\ has_key "event_name" d = false)
              \/ is_dict d = false)
    by (right; left; repeat split; reflexivity).
  split; [exact H|].
  exact (C3_normalize_is_identity_elsewhere d H).
Defined.

(** C10.  The single schedule of a wrapped legacy mapping has [id] ["1"],
    whatever the mapping held: an [id] that was there is replaced, its old
    value is gone and no second [id] entry is added. *)
Theorem C10_legacy_id_is_overwritten (members : list (string * json)) :
  Dict.mem "schedules" members = false ->
  Dict.mem "event_name" members = true ->
  exists members',
    field "schedules" (normalize (JObj members)) = Some (JArr [JObj members'])
    /\ Dict.get "id" members' = Some (JStr "1")
    /\ (Dict.mem "id" members = true -> map fst members' = map fst members)
    /\ (Dict.keys_distinct members = true ->
        Dict.keys_distinct members' = true).
Proof.
  intros Hsched Hevent.
  exists (Dict.set "id" (JStr "1") members).
  rewrite (normalize_legacy (JObj members) eq_refl Hsched Hevent).
  repeat split.
  - apply DictFacts.get_set_eq.
  - apply DictFacts.keys_set_present.
  - apply DictFacts.keys_distinct_set.
Qed.

Lemma C10_witness :
  let members := [("id", JStr "morning-7"); ("event_name", JStr "Morning")] in
  Dict.mem "schedules" members = false
  /\ Dict.mem "event_name" members = true
  /\ exists members',
      field "schedules" (normalize (JObj members))
      = Some (JArr [JObj members'])
      /\ Dict.get "id" members' = Some (JStr "1")
      /\ (Dict.mem "id" members = true -> map fst members' = map fst members)
      /\ (Dict.keys_distinct members = true ->
          Dict.keys_distinct members' = true).
Proof.
  intros members. split; [reflexivity|]. split; [reflexivity|].
  apply (C10_legacy_id_is_overwritten members); reflexivity.
Defined.

(** ** Reading and writing the schedule file *)

Lemma default_data_well_formed : Json.well_formed default_data = true.
Proof. reflexivity. Qed.

(** C2.  Without a schedule file, [load_schedules] returns the default
    document, which has exactly one schedule, with [id]
    ["unoccupied-default"] and [is_default] true; it writes that document to
    the schedule file, and the next [load_schedules] returns the same
    document. *)
Theorem C2_missing_file_yields_default (w : world) :
  files w !! SCHEDULES_FILE = None ->
  exists schedule w',
    load_schedules w = (Return default_data, w')
    /\ field "schedules" default_data = Some (JArr [schedule])
    /\ field "id" schedule = Some (JStr "unoccupied-default")
    /\ field "is_default" schedule = Some (JBool true)
    /\ files w' = <[SCHEDULES_FILE := Json.dumps default_data]> (files w)
    /\ Json.loads (Json.dumps default_data) = Some default_data
    /\ load_schedules w' = (Return default_data, w').
Proof.
  intros Hf.
  pose proof (JsonFacts.loads_dumps _ default_data_well_formed) as Hrt.
  eexists _, _. split; [now apply load_schedules_missing|].
  do 4 (split; [reflexivity|]). split; [exact Hrt|].
  rewrite (load_schedules_existing _ (Json.dumps default_data) default_data);
    [reflexivity | cbn [files]; apply lookup_insert_eq | exact Hrt].
Qed.

Lemma C2_witness :
  let w := World ∅ 0 in
  files w !! SCHEDULES_FILE = None
  /\ exists schedule w',
      load_schedules w = (Return default_data, w')
      /\ field "schedules" default_data = Some (JArr [schedule])
      /\ field "id" schedule = Some (JStr "unoccupied-default")
      /\ field "is_default" schedule = Some (JBool true)
      /\ files w' = <[SCHEDULES_FILE := Json.dumps default_data]> (files w)
      /\ Json.loads (Json.dumps default_data) = Some default_data
      /\ load_schedules w' = (Return default_data, w').
Proof.
  intros w. split; [reflexivity|].
  apply (C2_missing_file_yields_default w). reflexivity.
Defined.

(** C4.  A document that has the key [schedules], once saved, is what
    [load_schedules] returns next; the load leaves the file as saved. *)
Theorem C4_save_then_load (d : json) (w : world) :
  Json.well_formed d = true ->
  is_dict d = true ->
  has_key "schedules" d = true ->
  exists w',
    save_schedules d w = (Return tt, w')
    /\ load_schedules w' = (Return d, w').
Proof.
  intros Hwf _ Hsched. eexists. split; [apply save_schedules_writes|].
  rewrite (load_schedules_existing _ (Json.dumps d) d);
    [ now rewrite normalize_with_schedules
    | cbn [files]; apply lookup_insert_eq
    | now apply JsonFacts.loads_dumps ].
Qed.

Lemma C4_witness :
  let d := JObj [("schedules", JArr [JObj [("id", JStr "a");
                                            ("event_name", JStr "Night");
                                            ("days_of_week", JArr [JInt 1])]]);
                 ("metadata", JObj [("version", JStr "1.0")])] in
  let w := World ∅ 0 in
  Json.well_formed d = true
  /\ is_dict d = true
  /\ has_key "schedules" d = true
  /\ exists w',
      save_schedules d w = (Return tt, w')
      /\ load_schedules w' = (Return d, w').
Proof.
  intros d w. split; [reflexivity|]. split; [reflexivity|].
  split; [reflexivity|].
  apply (C4_save_then_load d w); reflexivity.
Defined.

(** C5.  [save_schedules_data] writes the value of the request body as it
    is, legacy-shaped or not: the schedule file then holds the encoding of
    that value and nothing of what it held before, and reading the file
    with [json.load] alone, without [load_schedules], gives the value
    back. *)
Theorem C5_replace_all_is_verbatim
    (request : Json.text) (d : json) (w : world) :
  Json.loads request = Some d ->
  exists resp w',
    save_schedules_data request w = (Return resp, w')
    /\ status resp = 200
    /\ files w' = <[SCHEDULES_FILE := Json.dumps d]> (files w)
    /\ Json.loads (Json.dumps d) = Some d
    /\ load_json SCHEDULES_FILE w' = (Return d, w').
Proof.
  intros Hd.
  pose proof (JsonFacts.loads_well_formed _ _ Hd) as Hwf.
  eexists _, _. split.
  - unfold save_schedules_data, try_except, mbind, py_bind, get_json.
    rewrite Hd. reflexivity.
  - repeat split.
    + now apply JsonFacts.loads_dumps.
    + now apply load_json_written.
Qed.

Lemma C5_witness :
  let d := JObj [("event_name", JStr "Morning"); ("id", JStr "7")] in
  let request := Json.dumps d in
  let w := World ∅ 0 in
  Json.loads request = Some d
  /\ exists resp w',
      save_schedules_data request w = (Return resp, w')
      /\ status resp = 200
      /\ files w' = <[SCHEDULES_FILE := Json.dumps d]> (files w)
      /\ Json.loads (Json.dumps d) = Some d
      /\ load_json SCHEDULES_FILE w' = (Return d, w').
Proof.
  intros d request w. split; [reflexivity|].
  apply (C5_replace_all_is_verbatim request d w). reflexivity.
Defined.

(** C6.  When the schedule file exists and parses, [load_schedules] and
    [get_schedules] leave the world as it was, whether the content is
    wrapped or not.  In any world, a [load_schedules] that changes the
    world found no schedule file. *)
Theorem C6_reading_leaves_the_file (w : world) (t : Json.text) (d : json) :
  files w !! SCHEDULES_FILE = Some t ->
  Json.loads t = Some d ->
  snd (load_schedules w) = w
  /\ snd (get_schedules w) = w
  /\ (forall w0,
        snd (load_schedules w0) <> w0 -> files w0 !! SCHEDULES_FILE = None).
Proof.
  intros Hf Hd.
  pose proof (load_schedules_existing w t d Hf Hd) as Hload.
  split; [now rewrite Hload|]. split.
  - unfold get_schedules, try_except, mbind, py_bind at 1.
    now rewrite Hload.
  - intros w0 Hchanged.
    destruct (files w0 !! SCHEDULES_FILE) as [t0|] eqn:Hf0; [|reflexivity].
    exfalso. apply Hchanged.
    destruct (Json.loads t0) as [d0|] eqn:Hd0.
    + now rewrite (load_schedules_existing w0 t0 d0).
    + now rewrite (load_schedules_malformed w0 t0).
Qed.

Lemma C6_witness :
  let d := JObj [("event_name", JStr "Morning")] in
  let t := Json.dumps d in
  let w := World {[ SCHEDULES_FILE := t ]} 0 in
  files w !! SCHEDULES_FILE = Some t
  /\ Json.loads t = Some d
  /\ snd (load_schedules w) = w
  /\ snd (get_schedules w) = w
  /\ (forall w0,
        snd (load_schedules w0) <> w0 -> files w0 !! SCHEDULES_FILE = None).
Proof.
  intros d t w. split; [reflexivity|]. split; [reflexivity|].
  apply (C6_reading_leaves_the_file w t d); reflexivity.
Defined.

(** C7.  When the schedule file exists and does not parse,
    [load_schedules] raises the decoder's error and writes nothing: the
    default document is not put in the file's place. *)
Theorem C7_malformed_file_raises (w : world) (t : Json.text) :
  files w !! SCHEDULES_FILE = Some t ->
  Json.loads t = None ->
  load_schedules w = (Raise JSONDecodeError, w)
  /\ fst (load_schedules w) <> Return default_data
  /\ files (snd (load_schedules w)) !! SCHEDULES_FILE = Some t.
Proof.
  intros Hf Hd. rewrite (load_schedules_malformed w t Hf Hd).
  repeat split; [discriminate | exact Hf].
Qed.

Lemma C7_witness :
  let t := Json.chars "[1, 2" in
  let w := World {[ SCHEDULES_FILE := t ]} 0 in
  files w !! SCHEDULES_FILE = Some t
  /\ Json.loads t = None
  /\ load_schedules w = (Raise JSONDecodeError, w)
  /\ fst (load_schedules w) <> Return default_data
  /\ files (snd (load_schedules w)) !! SCHEDULES_FILE = Some t.
Proof.
  intros t w. split; [reflexivity|]. split; [reflexivity|].
  apply (C7_malformed_file_raises w t); reflexivity.
Defined.

(** C9.  The metadata of the default document carries the same fixed text
    in [created_at] and [updated_at], the one the wrapping of a legacy
    mapping writes too; worlds that agree on the schedule file, whatever
    their clocks and other files, get the same result from
    [load_schedules]. *)
Theorem C9_timestamps_are_fixed (w1 w2 : world) :
  files w1 !! SCHEDULES_FILE = files w2 !! SCHEDULES_FILE ->
  fst (load_schedules w1) = fst (load_schedules w2)
  /\ (files w1 !! SCHEDULES_FILE = None ->
      exists doc metadata,
        fst (load_schedules w1) = Return doc
        /\ field "metadata" doc = Some metadata
        /\ field "created_at" metadata
           = Some (JStr "2025-07-25T21:30:00.000000")
        /\ field "updated_at" metadata
           = Some (JStr "2025-07-25T21:30:00.000000")
        /\ forall d,
            is_dict d = true ->
            has_key "schedules" d = false ->
            has_key "event_name" d = true ->
            field "metadata" (normalize d) = Some metadata).
Proof.
  intros Hsame. split.
  - destruct (files w1 !! SCHEDULES_FILE) as [t|] eqn:Hf1; symmetry in Hsame.
    + destruct (Json.loads t) as [d|] eqn:Hd.
      * now rewrite (load_schedules_existing w1 t d),
          (load_schedules_existing w2 t d).
      * now rewrite (load_schedules_malformed w1 t),
          (load_schedules_malformed w2 t).
    + now rewrite (load_schedules_missing w1), (load_schedules_missing w2).
  - intros Hf. rewrite (load_schedules_missing w1 Hf).
    exists default_data, placeholder_metadata.
    do 4 (split; [reflexivity|]).
    intros d H1 H2 H3. now rewrite normalize_legacy.
Qed.

Lemma C9_witness :
  let w1 := World ∅ 0 in
  let w2 := World {[ DEVICE_CONFIG_FILE := Json.chars "{}" ]} 1700000000 in
  files w1 !! SCHEDULES_FILE = files w2 !! SCHEDULES_FILE
  /\ fst (load_schedules w1) = fst (load_schedules w2)
  /\ (files w1 !! SCHEDULES_FILE = None ->
      exists doc metadata,
        fst (load_schedules w1) = Return doc
        /\ field "metadata" doc = Some metadata
        /\ field "created_at" metadata
           = Some (JStr "2025-07-25T21:30:00.000000")
        /\ field "updated_at" metadata
           = Some (JStr "2025-07-25T21:30:00.000000")
        /\ forall d,
            is_dict d = true ->
            has_key "schedules" d = false ->
            has_key "event_name" d = true ->
            field "metadata" (normalize d) = Some metadata).
Proof.
  intros w1 w2. split; [reflexivity|].
  apply (C9_timestamps_are_fixed w1 w2). reflexivity.
Defined.

(** ** The device configuration *)

(** C8.  Without a device configuration file, [get_device_config] answers
    with the built-in configuration, whose time zone is
    ["America/New_York"], and writes nothing: the world is as before and the
    configuration file is still absent. *)
Theorem C8_device_config_default (w : world) :
  files w !! DEVICE_CONFIG_FILE = None ->
  exists resp device,
    get_device_config w = (Return resp, w)
    /\ status resp = 200
    /\ body resp = default_config
    /\ field "device" (body resp) = Some device
    /\ field "timezone" device = Some (JStr "America/New_York")
    /\ files (snd (get_device_config w)) !! DEVICE_CONFIG_FILE = None.
Proof.
  intros Hf.
  assert (Hget : get_device_config w = (Return (jsonify default_config), w)).
  { unfold get_device_config, try_except, mbind, py_bind.
    rewrite load_json_unfold, Hf. reflexivity. }
  eexists _, _. split; [exact Hget|].
  do 4 (split; [reflexivity|]).
  now rewrite Hget.
Qed.

Lemma C8_witness :
  let w := World {[ SCHEDULES_FILE := Json.dumps default_data ]} 0 in
  files w !! DEVICE_CONFIG_FILE = None
  /\ exists resp device,
      get_device_config w = (Return resp, w)
      /\ status resp = 200
      /\ body resp = default_config
      /\ field "device" (body resp) = Some device
      /\ field "timezone" device = Some (JStr "America/New_York")
      /\ files (snd (get_device_config w)) !! DEVICE_CONFIG_FILE = None.
Proof.
  intros w. split; [reflexivity|].
  apply (C8_device_config_default w). reflexivity.
Defined.

(** ** Two runs *)

(** No schedule file: the default document comes back with status 200, and
    the file then holds its encoding. *)
Example get_schedules_creates_the_file :
  get_schedules (World ∅ 0)
  = (Return (Response 200 default_data),
     World {[ SCHEDULES_FILE := Json.dumps default_data ]} 0).
Proof. reflexivity. Qed.

(** A legacy file: the mapping comes back wrapped, its [id] replaced, and
    the file is as it was. *)
Example get_schedules_wraps_a_legacy_file :
  let legacy := JObj [("id", JInt 7); ("event_name", JStr "Morning")] in
  let w := World {[ SCHEDULES_FILE := Json.dumps legacy ]} 0 in
  get_schedules w
  = (Return
       (Response 200
          (JObj [("schedules",
                  JArr [JObj [("id", JStr "1");
                              ("event_name", JStr "Morning")]]);
                 ("metadata", placeholder_metadata)])),
     w).
Proof. reflexivity. Qed.

(** A file that does not parse: status 500, nothing written. *)
Example get_schedules_on_a_broken_file :
  let w := World {[ SCHEDULES_FILE := Json.chars "{" ]} 0 in
  get_schedules w
  = (Return (Response 500
               (JObj [("error", JStr "Failed to retrieve schedules")])),
     w).
Proof. reflexivity. Qed.

(** * Further properties of the handlers *)

(** ** Shared facts *)

(** The three ways [load_schedules] can go. *)
Lemma load_schedules_cases w :
  (files w !! SCHEDULES_FILE = None
   /\ load_schedules w
      = (Return default_data,
         World (<[SCHEDULES_FILE := Json.dumps default_data]> (files w))
           (clock w)))
  \/ (exists t d,
        files w !! SCHEDULES_FILE = Some t
        /\ Json.loads t = Some d
        /\ load_schedules w = (Return (normalize d), w))
  \/ (exists t,
        files w !! SCHEDULES_FILE = Some t
        /\ Json.loads t = None
        /\ load_schedules w = (Raise JSONDecodeError, w)).
Proof.
  destruct (files w !! SCHEDULES_FILE) as [t|] eqn:Hf.
  - right. destruct (Json.loads t) as [d|] eqn:Hd.
    + left. exists t, d.
      split; [reflexivity|]. split; [exact Hd|].
      now apply load_schedules_existing with t.
    + right. exists t.
      split; [reflexivity|]. split; [exact Hd|].
      now apply load_schedules_malformed with t.
  - left. split; [reflexivity|]. now apply load_schedules_missing.
Qed.

(** Normalising either changes nothing or gives a value with the key
    [schedules]. *)
Lemma normalize_result d :
  normalize d = d \/ has_key "schedules" (normalize d) = true.
Proof.
  unfold normalize.
  destruct (is_dict d && negb (has_key "schedules" d)); [|now left].
  destruct (has_key "event_name" d); [now right | now left].
Qed.

Lemma normalize_idempotent d : normalize (normalize d) = normalize d.
Proof.
  destruct (normalize_result d) as [H|H].
  - now rewrite !H.
  - now apply normalize_with_schedules.
Qed.

Lemma set_item_well_formed k v d :
  Json.well_formed v = true ->
  Json.well_formed d = true ->
  Json.well_formed (set_item k v d) = true.
Proof.
  intros Hv Hd. destruct d as [| | | | | |members]; try exact Hd.
  cbn [set_item Json.well_formed] in Hd |- *.
  apply andb_true_iff in Hd as [Hkeys Hvals].
  rewrite DictFacts.keys_distinct_set by exact Hkeys.
  now rewrite (DictFacts.forall_values_set Json.well_formed).
Qed.

Lemma normalize_well_formed d :
  Json.well_formed d = true -> Json.well_formed (normalize d) = true.
Proof.
  intros Hd. unfold normalize.
  destruct (is_dict d && negb (has_key "schedules" d)); [|exact Hd].
  destruct (has_key "event_name" d); [|exact Hd].
  cbn -[set_item].
  now rewrite (set_item_well_formed "id" (JStr "1") d).
Qed.

(** What [get_device_config] answers is read off the configuration file
    alone. *)
Lemma get_device_config_unfold w :
  get_device_config w
  = (Return
       match files w !! DEVICE_CONFIG_FILE with
       | None => jsonify default_config
       | Some t =>
           match Json.loads t with
           | Some config => jsonify config
           | None =>
               Response 500
                 (JObj [("error", JStr "Failed to get device configuration")])
           end
       end,
     w).
Proof.
  unfold get_device_config, try_except, mbind, py_bind.
  rewrite load_json_unfold.
  destruct (files w !! DEVICE_CONFIG_FILE) as [t|]; [|reflexivity].
  destruct (Json.loads t); reflexivity.
Qed.

Lemma save_schedules_data_unfold request w :
  save_schedules_data request w
  = match Json.loads request with
    | Some d =>
        (Return (jsonify (JObj [("success", JBool true);
                                ("message",
                                 JStr "Schedules saved successfully")])),
         World (<[SCHEDULES_FILE := Json.dumps d]> (files w)) (clock w))
    | None =>
        (Return (Response 500
                   (JObj [("error", JStr "Failed to save schedules")])),
         w)
    end.
Proof.
  unfold save_schedules_data, try_except, mbind, py_bind, get_json.
  destruct (Json.loads request); reflexivity.
Qed.

Lemma get_schedules_unfold w :
  get_schedules w
  = match load_schedules w with
    | (Return data, w') => (Return (jsonify data), w')
    | (Raise _, w') =>
        (Return (Response 500
                   (JObj [("error", JStr "Failed to retrieve schedules")])),
         w')
    end.
Proof.
  unfold get_schedules, try_except, mbind, py_bind.
  destruct (load_schedules w) as [[data|e] w']; reflexivity.
Qed.

Lemma schedules_file_is_not_device_config :
  SCHEDULES_FILE <> DEVICE_CONFIG_FILE.
Proof. discriminate. Qed.

(** ** [load_schedules] *)

(** X1.  Loading twice in a row: the second [load_schedules] gives what the
    first gave, a document or the decoder's error, and changes nothing
    more. *)
Theorem X1_second_load_repeats_the_first (w : world) :
  load_schedules (snd (load_schedules w))
  = (fst (load_schedules w), snd (load_schedules w)).
Proof.
  destruct (load_schedules_cases w)
    as [[Hf ->] | [(t & d & Hf & Hd & ->) | (t & Hf & Hd & ->)]];
    cbn [fst snd].
  - rewrite (load_schedules_existing _ (Json.dumps default_data)
               default_data);
      [ reflexivity
      | cbn [files]; apply lookup_insert_eq
      | apply JsonFacts.loads_dumps, default_data_well_formed ].
  - now apply load_schedules_existing with t.
  - now apply load_schedules_malformed with t.
Qed.

(** X2.  Whatever happens, after [load_schedules] the schedule file exists;
    no other file and not the clock has changed. *)
Theorem X2_load_touches_one_file (w : world) :
  files (snd (load_schedules w)) !! SCHEDULES_FILE <> None
  /\ clock (snd (load_schedules w)) = clock w
  /\ (forall path,
        path <> SCHEDULES_FILE ->
        files (snd (load_schedules w)) !! path = files w !! path).
Proof.
  destruct (load_schedules_cases w)
    as [[Hf ->] | [(t & d & Hf & Hd & ->) | (t & Hf & Hd & ->)]];
    cbn [fst snd files clock].
  - split; [now rewrite lookup_insert_eq|]. split; [reflexivity|].
    intros path Hpath. now rewrite lookup_insert_ne.
  - split; [now rewrite Hf|]. now split.
  - split; [now rewrite Hf|]. now split.
Qed.




(** X7.  Saving the document that [load_schedules] returned and loading
    again returns that document: what is read can be written back without
    change, and for a legacy file this is how the wrapped form gets
    stored. *)
Theorem X7_saving_what_was_loaded (w w1 : world) (doc : json) :
  load_schedules w = (Return doc, w1) ->
  exists w2,
    save_schedules doc w1 = (Return tt, w2)
    /\ files w2 !! SCHEDULES_FILE = Some (Json.dumps doc)
    /\ load_schedules w2 = (Return doc, w2).
Proof.
  intros Hload.
  assert (Hdoc : Json.well_formed doc = true /\ normalize doc = doc).
  { revert Hload.
    destruct (load_schedules_cases w)
      as [[Hf ->] | [(t & d & Hf & Hd & ->) | (t & Hf & Hd & ->)]];
      intros [= <- _].
    - split; [exact default_data_well_formed | reflexivity].
    - split; [|apply normalize_idempotent].
      apply normalize_well_formed.
      now apply JsonFacts.loads_well_formed with t. }
  destruct Hdoc as [Hwf Hfix].
  eexists. split; [apply save_schedules_writes|].
  cbn [files]. split; [apply lookup_insert_eq|].
  rewrite (load_schedules_existing _ (Json.dumps doc) doc);
    [ now rewrite Hfix
    | cbn [files]; apply lookup_insert_eq
    | now apply JsonFacts.loads_dumps ].
Qed.

Lemma X7_witness :
  let legacy := JObj [("id", JInt 7); ("event_name", JStr "Morning")] in
  let w := World {[ SCHEDULES_FILE := Json.dumps legacy ]} 0 in
  load_schedules w = (Return (normalize legacy), w)
  /\ exists w2,
      save_schedules (normalize legacy) w = (Return tt, w2)
      /\ files w2 !! SCHEDULES_FILE = Some (Json.dumps (normalize legacy))
      /\ load_schedules w2 = (Return (normalize legacy), w2).
Proof.
  intros legacy w. split; [reflexivity|].
  apply (X7_saving_what_was_loaded w w (normalize legacy)).
  reflexivity.
Defined.

(** ** The content check of [load_schedules] *)

(** X4.  Normalising twice is normalising once: a wrapped legacy mapping is
    not wrapped again. *)
Theorem X4_normalize_is_idempotent (d : json) :
  normalize (normalize d) = normalize d.
Proof.
  destruct (normalize_result d) as [H|H].
  - now rewrite !H.
  - unfold normalize at 1. rewrite H. now rewrite andb_false_r.
Qed.

(** X5.  The result has the key [schedules] exactly when the content had it
    or was a mapping with the key [event_name]; a mapping with neither key
    comes back without [schedules]. *)
Theorem X5_schedules_key_of_the_result (d : json) :
  has_key "schedules" (normalize d)
  = has_key "schedules" d || (is_dict d && has_key "event_name" d).
Proof.
  unfold normalize.
  destruct (is_dict d) eqn:Hdict, (has_key "schedules" d) eqn:Hs,
    (has_key "event_name" d) eqn:He; cbn [andb negb orb];
    try reflexivity; exact Hs.
Qed.

(** X14.  A legacy mapping without [id] gets it as a new last entry; its
    own entries stay as they are and in their order. *)
Theorem X14_legacy_without_id_gets_one (members : list (string * json)) :
  Dict.mem "schedules" members = false ->
  Dict.mem "event_name" members = true ->
  Dict.mem "id" members = false ->
  normalize (JObj members)
  = JObj [("schedules", JArr [JObj (members ++ [("id", JStr "1")])]);
          ("metadata", placeholder_metadata)].
Proof.
  intros Hs He Hid.
  rewrite (normalize_legacy (JObj members) eq_refl Hs He).
  cbn [set_item]. now rewrite DictFacts.set_fresh.
Qed.

Lemma X14_witness :
  let members := [("event_name", JStr "Morning");
                  ("schedule_type", JStr "thermostat")] in
  Dict.mem "schedules" members = false
  /\ Dict.mem "event_name" members = true
  /\ Dict.mem "id" members = false
  /\ normalize (JObj members)
     = JObj [("schedules", JArr [JObj (members ++ [("id", JStr "1")])]);
             ("metadata", placeholder_metadata)].
Proof.
  intros members. split; [reflexivity|]. split; [reflexivity|].
  split; [reflexivity|].
  apply (X14_legacy_without_id_gets_one members); reflexivity.
Defined.

(** ** The handlers *)




(** X10.  A [get_schedules] right after a [save_schedules_data] answers 200
    with the normalised value of the body that was posted: the body itself
    when it has the key [schedules], and the wrapped form, not what was
    posted, when the body is a legacy mapping. *)
Theorem X10_get_after_post
    (request : Json.text) (d : json) (w : world) :
  Json.loads request = Some d ->
  let w1 := snd (save_schedules_data request w) in
  get_schedules w1 = (Return (Response 200 (normalize d)), w1)
  /\ (has_key "schedules" d = true ->
      get_schedules w1 = (Return (Response 200 d), w1))
  /\ (is_dict d = true ->
      has_key "schedules" d = false ->
      has_key "event_name" d = true ->
      fst (get_schedules w1) <> Return (Response 200 d)).
Proof.
  intros Hreq w1.
  assert (Hget : get_schedules w1 = (Return (Response 200 (normalize d)), w1)).
  { subst w1. rewrite save_schedules_data_unfold, Hreq. cbn [snd].
    rewrite get_schedules_unfold.
    rewrite (load_schedules_existing _ (Json.dumps d) d);
      [ reflexivity
      | cbn [files]; apply lookup_insert_eq
      | eapply JsonFacts.loads_dumps, JsonFacts.loads_well_formed, Hreq ]. }
  split; [exact Hget|]. split.
  - intros Hs. now rewrite Hget, normalize_with_schedules.
  - intros H1 H2 H3. rewrite Hget. cbn [fst].
    rewrite (normalize_legacy d H1 H2 H3). intros [= Hd].
    rewrite <- Hd in H2. discriminate H2.
Qed.

Lemma X10_witness :
  let d := JObj [("event_name", JStr "Morning")] in
  let request := Json.dumps d in
  let w := World ∅ 0 in
  Json.loads request = Some d
  /\ let w1 := snd (save_schedules_data request w) in
     get_schedules w1 = (Return (Response 200 (normalize d)), w1)
     /\ (has_key "schedules" d = true ->
         get_schedules w1 = (Return (Response 200 d), w1))
     /\ (is_dict d = true ->
         has_key "schedules" d = false ->
         has_key "event_name" d = true ->
         fst (get_schedules w1) <> Return (Response 200 d)).
Proof.
  intros d request w. split; [reflexivity|].
  apply (X10_get_after_post request d w). reflexivity.
Defined.

(** X11.  The last post wins: after two posts the world is the one the
    second post alone would leave, whatever the first one was; nothing of
    the first body is merged into the file. *)
Theorem X11_last_post_wins (r1 r2 : Json.text) (d2 : json) (w : world) :
  Json.loads r2 = Some d2 ->
  snd (save_schedules_data r2 (snd (save_schedules_data r1 w)))
  = snd (save_schedules_data r2 w).
Proof.
  intros H2. rewrite !save_schedules_data_unfold, H2.
  destruct (Json.loads r1); cbn [snd files clock]; [|reflexivity].
  now rewrite insert_insert_eq.
Qed.

Lemma X11_witness :
  let d1 := JObj [("schedules", JArr [JObj [("id", JStr "a")]])] in
  let d2 := JObj [("schedules", JArr [])] in
  let w := World ∅ 0 in
  Json.loads (Json.dumps d2) = Some d2
  /\ snd (save_schedules_data (Json.dumps d2)
            (snd (save_schedules_data (Json.dumps d1) w)))
     = snd (save_schedules_data (Json.dumps d2) w).
Proof.
  intros d1 d2 w. split; [reflexivity|].
  apply (X11_last_post_wins (Json.dumps d1) (Json.dumps d2) d2 w).
  reflexivity.
Defined.

(** X15.  [save_schedules_data] writes to the schedule file and nowhere
    else: every other file and the clock are as before, whether the body
    parsed or not. *)
Theorem X15_post_touches_one_file (request : Json.text) (w : world) :
  clock (snd (save_schedules_data request w)) = clock w
  /\ (forall path,
        path <> SCHEDULES_FILE ->
        files (snd (save_schedules_data request w)) !! path
        = files w !! path).
Proof.
  rewrite save_schedules_data_unfold.
  destruct (Json.loads request); cbn [snd files clock].
  - split; [reflexivity|]. intros path Hpath. now rewrite lookup_insert_ne.
  - now split.
Qed.

(** ** The device configuration *)

(** X12.  [get_device_config] only reads: it leaves the world as it found
    it and never lets an exception out.  A configuration file that parses is
    answered as it is, with status 200 and without the wrapping that the
    schedule file gets; one that does not parse is answered with 500. *)
Theorem X12_device_config_is_read_only (w : world) :
  exists resp,
    get_device_config w = (Return resp, w)
    /\ (forall t config,
          files w !! DEVICE_CONFIG_FILE = Some t ->
          Json.loads t = Some config ->
          resp = Response 200 config)
    /\ (forall t,
          files w !! DEVICE_CONFIG_FILE = Some t ->
          Json.loads t = None ->
          resp = Response 500
                   (JObj [("error",
                           JStr "Failed to get device configuration")])).
Proof.
  rewrite get_device_config_unfold. eexists. split; [reflexivity|].
  split.
  - intros t config -> ->. reflexivity.
  - intros t -> ->. reflexivity.
Qed.

(** X13.  The answer of [get_device_config] does not depend on the schedule
    operations: it is the same after a [save_schedules_data] or a
    [load_schedules] as before. *)
Theorem X13_device_config_ignores_schedules
    (request : Json.text) (w : world) :
  fst (get_device_config (snd (save_schedules_data request w)))
  = fst (get_device_config w)
  /\ fst (get_device_config (snd (load_schedules w)))
     = fst (get_device_config w).
Proof.
  rewrite !get_device_config_unfold. cbn [fst].
  assert (Hpost : files (snd (save_schedules_data request w))
                    !! DEVICE_CONFIG_FILE
                  = files w !! DEVICE_CONFIG_FILE).
  { rewrite save_schedules_data_unfold.
    destruct (Json.loads request); cbn [snd files]; [|reflexivity].
    apply lookup_insert_ne, schedules_file_is_not_device_config. }
  assert (Hload : files (snd (load_schedules w)) !! DEVICE_CONFIG_FILE
                  = files w !! DEVICE_CONFIG_FILE).
  { destruct (load_schedules_cases w)
      as [[Hf ->] | [(t & d & Hf & Hd & ->) | (t & Hf & Hd & ->)]];
      cbn [snd files]; try reflexivity.
    apply lookup_insert_ne, schedules_file_is_not_device_config. }
  now rewrite Hpost, Hload.
Qed.
